(** * SkillKrack interview recorder: the capture / record / playback core

    A shallow embedding of [frontend/script.js].  The script keeps its whole
    state in module-level variables and reacts to page events and to callbacks
    of the browser (getUserMedia, MediaRecorder, setInterval, object URLs).

    - [Globals] holds the script's [let] variables, one field per variable.
    - [Platform] holds the browser objects the script creates and mutates
      through handles: media streams and their tracks, recorders, the blob URL
      store, armed interval timers, pending getUserMedia promises.  A handle is
      a number; two variables holding the same handle alias the same object.
    - [Dom] holds the properties of the page elements the script writes.

    Every function of the script is a computation in [Eff], a state monad with
    abrupt completion (an uncaught DOMException).  Callbacks registered by the
    script ([ondataavailable], [onstop], the interval callback, the
    continuation after [await]) are computations of their own, run when the
    platform delivers the matching [Event]. *)

From Stdlib Require Import Ascii.
From stdpp Require Import base gmap list strings pretty.

Open Scope string_scope.

(** ** Browser objects *)

(** A [Blob]: immutable bytes with a media type.  [event.data] of a
    [dataavailable] event and the argument of [URL.createObjectURL] are blobs. *)
Record Blob := mkBlob { blob_data : list Byte.byte; blob_type : string }.

Definition blob_size (b : Blob) : nat := length (blob_data b).

(** [new Blob(parts, { type })]: the bytes of the parts, in order. *)
Definition new_Blob (parts : list Blob) (type : string) : Blob :=
  mkBlob (concat (map blob_data parts)) type.

Inductive TrackKind := AudioTrack | VideoTrack.

(** A MediaStreamTrack: [live] is [readyState == "live"]. *)
Record Track := mkTrack { kind : TrackKind; enabled : bool; live : bool }.

Definition track_stop (t : Track) : Track := mkTrack (kind t) (enabled t) false.

Definition track_set_enabled (b : bool) (t : Track) : Track :=
  mkTrack (kind t) b (live t).

Definition is_audio (t : Track) : bool :=
  match kind t with AudioTrack => true | VideoTrack => false end.

(** A stream is active while one of its tracks is live. *)
Definition stream_active (ts : list Track) : bool := existsb live ts.

(** The tracks [getUserMedia({ video, audio })] delivers. *)
Definition user_media_tracks (audio : bool) : list Track :=
  mkTrack VideoTrack true true ::
  (if audio then [mkTrack AudioTrack true true] else []).

(** [MediaRecorder.state], with the task that [stop()] queues made explicit:
    after [stop()] the recorder is inactive for the script, and the final
    [dataavailable] and [stop] events are still to be delivered. *)
Inductive RecorderState := RecInactive | RecRecording | RecStopping.

Record Recorder := mkRecorder { rec_stream : nat; rec_state : RecorderState }.

Inductive DOMException := NotSupportedError.

(** The broken-down UTC time [new Date()] holds. *)
Record Date := mkDate {
  year : Z; month : nat; day : nat;
  hours : nat; minutes : nat; seconds : nat; millis : nat }.

(** ** The script's variables (script.js, lines 2-10)

    [stream], [mediaRecorder], [recordedVideoUrl] and [timerInterval] hold a
    handle or [null].  [recordingTime] counts seconds from 0 by steps of 1, on
    which JavaScript numbers are exact, so it is a natural number.  The
    question list and [currentQuestion] (lines 11-19) do not touch the
    recorder and are left out. *)

Record Globals := mkGlobals {
  stream : option nat;
  mediaRecorder : option nat;
  recordedChunks : list Blob;
  isRecording : bool;
  recordedVideoUrl : option nat;
  isMicEnabled : bool;
  recordingTime : nat;
  timerInterval : option nat;
  isPreviewMode : bool }.

Record Platform := mkPlatform {
  streams : gmap nat (list Track);
  recorders : gmap nat Recorder;
  objectUrls : gmap nat Blob;
  intervals : gmap nat N;
  pendingMedia : list bool;
  nextHandle : nat;
  alerts : list string;
  downloads : list (string * nat) }.

Record Dom := mkDom {
  cameraVideo_hidden : bool;
  cameraVideo_srcObject : option nat;
  playbackVideo_hidden : bool;
  playbackVideo_src : option nat;
  recordButton_hidden : bool;
  recordButton_disabled : bool;
  recordButton_stop : bool;
  resetButton_hidden : bool;
  downloadButton_hidden : bool;
  recordingIndicator_hidden : bool;
  micButton_enabled : bool;
  recordingTime_text : string }.

Record State := mkState { js : Globals; env : Platform; page : Dom }.

(** ** Assignments *)

Definition set_stream (v : option nat) (g : Globals) : Globals :=
  mkGlobals v (mediaRecorder g) (recordedChunks g) (isRecording g)
    (recordedVideoUrl g) (isMicEnabled g) (recordingTime g) (timerInterval g)
    (isPreviewMode g).

Definition set_mediaRecorder (v : option nat) (g : Globals) : Globals :=
  mkGlobals (stream g) v (recordedChunks g) (isRecording g)
    (recordedVideoUrl g) (isMicEnabled g) (recordingTime g) (timerInterval g)
    (isPreviewMode g).

Definition set_recordedChunks (v : list Blob) (g : Globals) : Globals :=
  mkGlobals (stream g) (mediaRecorder g) v (isRecording g)
    (recordedVideoUrl g) (isMicEnabled g) (recordingTime g) (timerInterval g)
    (isPreviewMode g).

Definition set_isRecording (v : bool) (g : Globals) : Globals :=
  mkGlobals (stream g) (mediaRecorder g) (recordedChunks g) v
    (recordedVideoUrl g) (isMicEnabled g) (recordingTime g) (timerInterval g)
    (isPreviewMode g).

Definition set_recordedVideoUrl (v : option nat) (g : Globals) : Globals :=
  mkGlobals (stream g) (mediaRecorder g) (recordedChunks g) (isRecording g)
    v (isMicEnabled g) (recordingTime g) (timerInterval g) (isPreviewMode g).

Definition set_isMicEnabled (v : bool) (g : Globals) : Globals :=
  mkGlobals (stream g) (mediaRecorder g) (recordedChunks g) (isRecording g)
    (recordedVideoUrl g) v (recordingTime g) (timerInterval g)
    (isPreviewMode g).

Definition set_recordingTime (v : nat) (g : Globals) : Globals :=
  mkGlobals (stream g) (mediaRecorder g) (recordedChunks g) (isRecording g)
    (recordedVideoUrl g) (isMicEnabled g) v (timerInterval g)
    (isPreviewMode g).

Definition set_timerInterval (v : option nat) (g : Globals) : Globals :=
  mkGlobals (stream g) (mediaRecorder g) (recordedChunks g) (isRecording g)
    (recordedVideoUrl g) (isMicEnabled g) (recordingTime g) v
    (isPreviewMode g).

Definition set_isPreviewMode (v : bool) (g : Globals) : Globals :=
  mkGlobals (stream g) (mediaRecorder g) (recordedChunks g) (isRecording g)
    (recordedVideoUrl g) (isMicEnabled g) (recordingTime g) (timerInterval g)
    v.

Definition set_streams (v : gmap nat (list Track)) (p : Platform) : Platform :=
  mkPlatform v (recorders p) (objectUrls p) (intervals p) (pendingMedia p)
    (nextHandle p) (alerts p) (downloads p).

Definition set_recorders (v : gmap nat Recorder) (p : Platform) : Platform :=
  mkPlatform (streams p) v (objectUrls p) (intervals p) (pendingMedia p)
    (nextHandle p) (alerts p) (downloads p).

Definition set_objectUrls (v : gmap nat Blob) (p : Platform) : Platform :=
  mkPlatform (streams p) (recorders p) v (intervals p) (pendingMedia p)
    (nextHandle p) (alerts p) (downloads p).

Definition set_intervals (v : gmap nat N) (p : Platform) : Platform :=
  mkPlatform (streams p) (recorders p) (objectUrls p) v (pendingMedia p)
    (nextHandle p) (alerts p) (downloads p).

Definition set_pendingMedia (v : list bool) (p : Platform) : Platform :=
  mkPlatform (streams p) (recorders p) (objectUrls p) (intervals p) v
    (nextHandle p) (alerts p) (downloads p).

Definition set_nextHandle (v : nat) (p : Platform) : Platform :=
  mkPlatform (streams p) (recorders p) (objectUrls p) (intervals p)
    (pendingMedia p) v (alerts p) (downloads p).

Definition set_alerts (v : list string) (p : Platform) : Platform :=
  mkPlatform (streams p) (recorders p) (objectUrls p) (intervals p)
    (pendingMedia p) (nextHandle p) v (downloads p).

Definition set_downloads (v : list (string * nat)) (p : Platform) : Platform :=
  mkPlatform (streams p) (recorders p) (objectUrls p) (intervals p)
    (pendingMedia p) (nextHandle p) (alerts p) v.

Definition set_cameraVideo_hidden (v : bool) (d : Dom) : Dom :=
  mkDom v (cameraVideo_srcObject d) (playbackVideo_hidden d)
    (playbackVideo_src d) (recordButton_hidden d) (recordButton_disabled d)
    (recordButton_stop d) (resetButton_hidden d) (downloadButton_hidden d)
    (recordingIndicator_hidden d) (micButton_enabled d) (recordingTime_text d).

Definition set_cameraVideo_srcObject (v : option nat) (d : Dom) : Dom :=
  mkDom (cameraVideo_hidden d) v (playbackVideo_hidden d)
    (playbackVideo_src d) (recordButton_hidden d) (recordButton_disabled d)
    (recordButton_stop d) (resetButton_hidden d) (downloadButton_hidden d)
    (recordingIndicator_hidden d) (micButton_enabled d) (recordingTime_text d).

Definition set_playbackVideo_hidden (v : bool) (d : Dom) : Dom :=
  mkDom (cameraVideo_hidden d) (cameraVideo_srcObject d) v
    (playbackVideo_src d) (recordButton_hidden d) (recordButton_disabled d)
    (recordButton_stop d) (resetButton_hidden d) (downloadButton_hidden d)
    (recordingIndicator_hidden d) (micButton_enabled d) (recordingTime_text d).

Definition set_playbackVideo_src (v : option nat) (d : Dom) : Dom :=
  mkDom (cameraVideo_hidden d) (cameraVideo_srcObject d)
    (playbackVideo_hidden d) v (recordButton_hidden d)
    (recordButton_disabled d) (recordButton_stop d) (resetButton_hidden d)
    (downloadButton_hidden d) (recordingIndicator_hidden d)
    (micButton_enabled d) (recordingTime_text d).

Definition set_recordButton_hidden (v : bool) (d : Dom) : Dom :=
  mkDom (cameraVideo_hidden d) (cameraVideo_srcObject d)
    (playbackVideo_hidden d) (playbackVideo_src d) v
    (recordButton_disabled d) (recordButton_stop d) (resetButton_hidden d)
    (downloadButton_hidden d) (recordingIndicator_hidden d)
    (micButton_enabled d) (recordingTime_text d).

Definition set_recordButton_disabled (v : bool) (d : Dom) : Dom :=
  mkDom (cameraVideo_hidden d) (cameraVideo_srcObject d)
    (playbackVideo_hidden d) (playbackVideo_src d) (recordButton_hidden d) v
    (recordButton_stop d) (resetButton_hidden d) (downloadButton_hidden d)
    (recordingIndicator_hidden d) (micButton_enabled d) (recordingTime_text d).

Definition set_recordButton_stop (v : bool) (d : Dom) : Dom :=
  mkDom (cameraVideo_hidden d) (cameraVideo_srcObject d)
    (playbackVideo_hidden d) (playbackVideo_src d) (recordButton_hidden d)
    (recordButton_disabled d) v (resetButton_hidden d)
    (downloadButton_hidden d) (recordingIndicator_hidden d)
    (micButton_enabled d) (recordingTime_text d).

Definition set_resetButton_hidden (v : bool) (d : Dom) : Dom :=
  mkDom (cameraVideo_hidden d) (cameraVideo_srcObject d)
    (playbackVideo_hidden d) (playbackVideo_src d) (recordButton_hidden d)
    (recordButton_disabled d) (recordButton_stop d) v
    (downloadButton_hidden d) (recordingIndicator_hidden d)
    (micButton_enabled d) (recordingTime_text d).

Definition set_downloadButton_hidden (v : bool) (d : Dom) : Dom :=
  mkDom (cameraVideo_hidden d) (cameraVideo_srcObject d)
    (playbackVideo_hidden d) (playbackVideo_src d) (recordButton_hidden d)
    (recordButton_disabled d) (recordButton_stop d) (resetButton_hidden d) v
    (recordingIndicator_hidden d) (micButton_enabled d) (recordingTime_text d).

Definition set_recordingIndicator_hidden (v : bool) (d : Dom) : Dom :=
  mkDom (cameraVideo_hidden d) (cameraVideo_srcObject d)
    (playbackVideo_hidden d) (playbackVideo_src d) (recordButton_hidden d)
    (recordButton_disabled d) (recordButton_stop d) (resetButton_hidden d)
    (downloadButton_hidden d) v (micButton_enabled d) (recordingTime_text d).

Definition set_micButton_enabled (v : bool) (d : Dom) : Dom :=
  mkDom (cameraVideo_hidden d) (cameraVideo_srcObject d)
    (playbackVideo_hidden d) (playbackVideo_src d) (recordButton_hidden d)
    (recordButton_disabled d) (recordButton_stop d) (resetButton_hidden d)
    (downloadButton_hidden d) (recordingIndicator_hidden d) v
    (recordingTime_text d).

Definition set_recordingTime_text (v : string) (d : Dom) : Dom :=
  mkDom (cameraVideo_hidden d) (cameraVideo_srcObject d)
    (playbackVideo_hidden d) (playbackVideo_src d) (recordButton_hidden d)
    (recordButton_disabled d) (recordButton_stop d) (resetButton_hidden d)
    (downloadButton_hidden d) (recordingIndicator_hidden d)
    (micButton_enabled d) v.

(** ** The effect monad *)

(** How a call ends: normally with a value, or abruptly with an exception the
    script does not catch.  Either way the mutations made so far stay. *)
Inductive Completion (A : Type) :=
| Normal (a : A) (s : State)
| Abrupt (e : DOMException) (s : State).
Arguments Normal {A} a s.
Arguments Abrupt {A} e s.

Definition Eff (A : Type) : Type := State → Completion A.

Definition after {A} (c : Completion A) : State :=
  match c with Normal _ s => s | Abrupt _ s => s end.

Definition returns {A} (c : Completion A) : bool :=
  match c with Normal _ _ => true | Abrupt _ _ => false end.

Definition eff_ret {A} (a : A) : Eff A := λ s, Normal a s.

Definition eff_bind {A B} (f : A → Eff B) (m : Eff A) : Eff B :=
  λ s, match m s with
       | Normal a s' => f a s'
       | Abrupt e s' => Abrupt e s'
       end.

#[global] Instance Eff_ret : MRet Eff := @eff_ret.
#[global] Instance Eff_bind : MBind Eff := @eff_bind.

Definition throw {A} (e : DOMException) : Eff A := λ s, Abrupt e s.

Definition getJs : Eff Globals := λ s, Normal (js s) s.
Definition getEnv : Eff Platform := λ s, Normal (env s) s.

Definition modJs (f : Globals → Globals) : Eff unit :=
  λ s, Normal () (mkState (f (js s)) (env s) (page s)).
Definition modEnv (f : Platform → Platform) : Eff unit :=
  λ s, Normal () (mkState (js s) (f (env s)) (page s)).
Definition modDom (f : Dom → Dom) : Eff unit :=
  λ s, Normal () (mkState (js s) (env s) (f (page s))).

(** A handle no object has yet. *)
Definition freshHandle : Eff nat :=
  λ s, Normal (nextHandle (env s))
         (mkState (js s) (set_nextHandle (S (nextHandle (env s))) (env s)) (page s)).

(** ** Platform operations

    What the browser does when the script calls it.  A held handle is truthy:
    timer ids are positive numbers, blob URLs are non-empty strings, streams
    and recorders are objects; [null] is [None]. *)

(** [navigator.mediaDevices.getUserMedia({ video, audio })]: a promise, settled
    later by the platform. *)
Definition getUserMedia (audio : bool) : Eff unit :=
  modEnv (λ p, set_pendingMedia (pendingMedia p ++ [audio]) p).

(** The stream a fulfilled getUserMedia promise carries. *)
Definition new_MediaStream (audio : bool) : Eff nat :=
  st ← freshHandle;
  modEnv (λ p, set_streams (<[st := user_media_tracks audio]> (streams p)) p);;
  mret st.

(** [new MediaRecorder(stream, options)]: the container the script asks for is
    taken to be supported, so the constructor returns. *)
Definition new_MediaRecorder (st : nat) : Eff nat :=
  r ← freshHandle;
  modEnv (λ p, set_recorders (<[r := mkRecorder st RecInactive]> (recorders p)) p);;
  mret r.

Definition recorder_stream_active (p : Platform) (r : nat) : bool :=
  match recorders p !! r with
  | Some rc =>
      match streams p !! rec_stream rc with
      | Some ts => stream_active ts
      | None => false
      end
  | None => false
  end.

Definition set_rec_state (st : RecorderState) (rc : Recorder) : Recorder :=
  mkRecorder (rec_stream rc) st.

(** [recorder.start()]: NotSupportedError on an inactive stream. *)
Definition MediaRecorder_start (r : nat) : Eff unit :=
  p ← getEnv;
  if recorder_stream_active p r
  then modEnv (λ p, set_recorders (alter (set_rec_state RecRecording) r (recorders p)) p)
  else throw NotSupportedError.

Definition stop_rec (rc : Recorder) : Recorder :=
  match rec_state rc with
  | RecRecording => set_rec_state RecStopping rc
  | _ => rc
  end.

(** [recorder.stop()]: inactivates a recording recorder and queues the task
    that fires its last [dataavailable] and its [stop] event. *)
Definition MediaRecorder_stop (r : nat) : Eff unit :=
  modEnv (λ p, set_recorders (alter stop_rec r (recorders p)) p).

Definition URL_createObjectURL (b : Blob) : Eff nat :=
  u ← freshHandle;
  modEnv (λ p, set_objectUrls (<[u := b]> (objectUrls p)) p);;
  mret u.

Definition URL_revokeObjectURL (u : nat) : Eff unit :=
  modEnv (λ p, set_objectUrls (delete u (objectUrls p)) p).

(** [setInterval(callback, delay)]: arms a timer that fires every [delay]
    milliseconds.  The script has one interval callback. *)
Definition setInterval (delay : N) : Eff nat :=
  t ← freshHandle;
  modEnv (λ p, set_intervals (<[t := delay]> (intervals p)) p);;
  mret t.

Definition clearInterval (t : option nat) : Eff unit :=
  match t with
  | Some t => modEnv (λ p, set_intervals (delete t (intervals p)) p)
  | None => mret ()
  end.

(** [stream.getTracks().forEach((track) => track.stop())] *)
Definition stop_all_tracks (st : nat) : Eff unit :=
  modEnv (λ p, set_streams (alter (map track_stop) st (streams p)) p).

Definition enable_audio (b : bool) (t : Track) : Track :=
  if is_audio t then track_set_enabled b t else t.

(** [stream.getAudioTracks().forEach((track) => { track.enabled = b })] *)
Definition set_audio_tracks_enabled (st : nat) (b : bool) : Eff unit :=
  modEnv (λ p, set_streams (alter (map (enable_audio b)) st (streams p)) p).

Definition alert (msg : string) : Eff unit :=
  modEnv (λ p, set_alerts (alerts p ++ [msg]) p).

(** The anchor the script builds, clicks and removes: the browser saves the
    resource at [href] under the name [download]. *)
Definition click_download_anchor (href : nat) (download : string) : Eff unit :=
  modEnv (λ p, set_downloads (downloads p ++ [(download, href)]) p).

(** *** Strings and dates *)

Definition digit (n : nat) : ascii :=
  match n mod 10 with
  | 0 => "0" | 1 => "1" | 2 => "2" | 3 => "3" | 4 => "4"
  | 5 => "5" | 6 => "6" | 7 => "7" | 8 => "8" | _ => "9"
  end%char.

Definition digits2 (n : nat) : string :=
  String (digit (n / 10)) (String (digit n) "").
Definition digits3 (n : nat) : string := String (digit (n / 100)) (digits2 n).
Definition digits4 (n : nat) : string := String (digit (n / 1000)) (digits3 n).
Definition digits6 (n : nat) : string :=
  String (digit (n / 1000 / 100)) (String (digit (n / 1000 / 10)) (digits4 n)).

(** [Date.prototype.toISOString]: [YYYY-MM-DDTHH:mm:ss.sssZ] for the years 0 to
    9999, and the expanded form with a sign and six digits for the others. *)
Definition toISOString (d : Date) : string :=
  (if bool_decide (0 ≤ year d ≤ 9999)%Z
   then digits4 (Z.to_nat (year d))
   else String (if bool_decide (0 ≤ year d)%Z then "+" else "-")%char
               (digits6 (Z.to_nat (Z.abs (year d)))))
  +:+ "-" +:+ digits2 (month d) +:+ "-" +:+ digits2 (day d)
  +:+ "T" +:+ digits2 (hours d) +:+ ":" +:+ digits2 (minutes d)
  +:+ ":" +:+ digits2 (seconds d) +:+ "." +:+ digits3 (millis d) +:+ "Z".

(** [s.slice(0, n)] *)
Fixpoint slice0 (n : nat) (s : string) : string :=
  match n, s with
  | S n, String c s => String c (slice0 n s)
  | _, _ => ""
  end.

(** [s.replace(/:/g, "-")] *)
Fixpoint replace_colons (s : string) : string :=
  match s with
  | "" => ""
  | String c s =>
      String (if Ascii.eqb c ":" then "-" else c)%char (replace_colons s)
  end.

(** [s.padStart(n, "0")] *)
Definition padStart0 (n : nat) (s : string) : string :=
  String.string_of_list_ascii (repeat "0"%char (n - String.length s)) +:+ s.

(** ** The script *)

(** [initializeCamera] up to its [await] (lines 57-62). *)
Definition initializeCamera : Eff unit :=
  g ← getJs;
  getUserMedia (isMicEnabled g).

(** [initializeCamera] after the promise fulfils (lines 59, 64-68). *)
Definition initializeCamera_fulfilled (st : nat) : Eff unit :=
  modJs (set_stream (Some st));;
  modDom (set_cameraVideo_srcObject (Some st));;
  modDom (set_recordButton_disabled false).

(** [initializeCamera] after the promise rejects (lines 69-74). *)
Definition initializeCamera_rejected : Eff unit :=
  alert "Unable to access camera. Please check permissions and reload the page.".

(** Lines 195-212.  Assigning [className] replaces the button's class list,
    which drops a [hidden] class put there by [switchToPlaybackMode]. *)
Definition updateRecordingUI : Eff unit :=
  g ← getJs;
  modDom (set_recordButton_stop (isRecording g));;
  modDom (set_recordButton_hidden false);;
  modDom (set_recordingIndicator_hidden (negb (isRecording g))).

(** Lines 214-226. *)
Definition updateMicrophoneUI : Eff unit :=
  g ← getJs;
  modDom (set_micButton_enabled (isMicEnabled g)).

(** Lines 228-235. *)
Definition updateRecordingTime : Eff unit :=
  g ← getJs;
  let mins := recordingTime g / 60 in
  let secs := recordingTime g mod 60 in
  let timeString := padStart0 2 (pretty mins) +:+ ":" +:+ padStart0 2 (pretty secs) in
  modDom (set_recordingTime_text ("REC " +:+ timeString)).

(** Lines 176-183. *)
Definition switchToPreviewMode : Eff unit :=
  modJs (set_isPreviewMode true);;
  modDom (set_cameraVideo_hidden false);;
  modDom (set_playbackVideo_hidden true);;
  modDom (set_recordButton_hidden false);;
  modDom (set_resetButton_hidden true);;
  modDom (set_downloadButton_hidden true).

(** Lines 185-193. *)
Definition switchToPlaybackMode : Eff unit :=
  modJs (set_isPreviewMode false);;
  modDom (set_cameraVideo_hidden true);;
  modDom (set_playbackVideo_hidden false);;
  g ← getJs;
  modDom (set_playbackVideo_src (recordedVideoUrl g));;
  modDom (set_recordButton_hidden true);;
  modDom (set_resetButton_hidden false);;
  modDom (set_downloadButton_hidden false).

(** [mediaRecorder.ondataavailable] (lines 93-97). *)
Definition ondataavailable (data : Blob) : Eff unit :=
  if bool_decide (0 < blob_size data)
  then modJs (λ g, set_recordedChunks (recordedChunks g ++ [data]) g)
  else mret ().

(** [mediaRecorder.onstop] (lines 99-105). *)
Definition onstop : Eff unit :=
  g ← getJs;
  let blob := new_Blob (recordedChunks g) "video/webm" in
  u ← URL_createObjectURL blob;
  modJs (set_recordedVideoUrl (Some u));;
  switchToPlaybackMode.

(** The interval callback (lines 115-118). *)
Definition timerCallback : Eff unit :=
  modJs (λ g, set_recordingTime (recordingTime g + 1) g);;
  updateRecordingTime.

(** Lines 85-119. *)
Definition startRecording : Eff unit :=
  g ← getJs;
  match stream g with
  | None => mret ()
  | Some st =>
      modJs (set_recordedChunks []);;
      r ← new_MediaRecorder st;
      modJs (set_mediaRecorder (Some r));;
      MediaRecorder_start r;;
      modJs (set_isRecording true);;
      modJs (set_recordingTime 0);;
      updateRecordingUI;;
      t ← setInterval 1000%N;
      modJs (set_timerInterval (Some t))
  end.

(** Lines 121-128. *)
Definition stopRecording : Eff unit :=
  g ← getJs;
  match mediaRecorder g with
  | Some r =>
      if isRecording g then
        MediaRecorder_stop r;;
        modJs (set_isRecording false);;
        clearInterval (timerInterval g);;
        updateRecordingUI
      else mret ()
  | None => mret ()
  end.

(** Lines 77-83. *)
Definition toggleRecording : Eff unit :=
  g ← getJs;
  if isRecording g then stopRecording else startRecording.

(** Lines 130-143. *)
Definition resetRecording : Eff unit :=
  g ← getJs;
  match recordedVideoUrl g with
  | Some u => URL_revokeObjectURL u;; modJs (set_recordedVideoUrl None)
  | None => mret ()
  end;;
  modJs (set_recordedChunks []);;
  modJs (set_recordingTime 0);;
  modJs (set_isPreviewMode true);;
  switchToPreviewMode;;
  initializeCamera.

Definition download_name (now : Date) : string :=
  "interview-recording-" +:+ replace_colons (slice0 19 (toISOString now)) +:+ ".webm".

(** Lines 145-157; [now] is what [new Date()] reads. *)
Definition downloadVideo (now : Date) : Eff unit :=
  g ← getJs;
  match recordedVideoUrl g with
  | Some u => click_download_anchor u (download_name now)
  | None => mret ()
  end.

(** Lines 159-169. *)
Definition toggleMicrophone : Eff unit :=
  modJs (λ g, set_isMicEnabled (negb (isMicEnabled g)) g);;
  g ← getJs;
  match stream g with
  | Some st => set_audio_tracks_enabled st (isMicEnabled g)
  | None => mret ()
  end;;
  updateMicrophoneUI.

(** The [beforeunload] listener (lines 30-37). *)
Definition beforeunload : Eff unit :=
  g ← getJs;
  match stream g with
  | Some st => stop_all_tracks st
  | None => mret ()
  end;;
  clearInterval (timerInterval g).

(** ** Events

    What can happen to the page: the user's clicks on the controls and the
    callbacks of the platform, one task of the event loop each.  A callback
    runs only when the platform has a reason to deliver it:
    - [MediaGranted i] and [MediaDenied i] settle the [i]-th pending
      getUserMedia promise;
    - [DataAvailable r data] is a [dataavailable] event of recorder [r], which
      fires them while recording and, once more, after [stop()];
    - [RecorderStop r] is the [stop] event of recorder [r], delivered in a
      task after the call of [stop()] that queued it, so other events can
      come between the call and the event;
    - [TimerTick t] is a tick of timer [t], which ticks only while armed.
    Page teardown is not among them: [beforeunload] is a handler of its own,
    run as the page is about to go.  Nor is a track that the platform ends
    by itself (an unplugged camera): through these events a held stream
    stays active. *)
Inductive Event :=
| WindowLoad
| MediaGranted (i : nat)
| MediaDenied (i : nat)
| RecordClick
| ResetClick
| DownloadClick (now : Date)
| MicClick
| DataAvailable (r : nat) (data : Blob)
| RecorderStop (r : nat)
| TimerTick (t : nat).

Definition recorder_fires (p : Platform) (r : nat) : bool :=
  match rec_state <$> recorders p !! r with
  | Some RecRecording | Some RecStopping => true
  | _ => false
  end.

Definition recorder_stopping (p : Platform) (r : nat) : bool :=
  match rec_state <$> recorders p !! r with
  | Some RecStopping => true
  | _ => false
  end.

Definition dispatch (e : Event) : Eff unit :=
  match e with
  | WindowLoad => initializeCamera
  | MediaGranted i =>
      p ← getEnv;
      match pendingMedia p !! i with
      | Some audio =>
          modEnv (λ p, set_pendingMedia (delete i (pendingMedia p)) p);;
          st ← new_MediaStream audio;
          initializeCamera_fulfilled st
      | None => mret ()
      end
  | MediaDenied i =>
      p ← getEnv;
      match pendingMedia p !! i with
      | Some _ =>
          modEnv (λ p, set_pendingMedia (delete i (pendingMedia p)) p);;
          initializeCamera_rejected
      | None => mret ()
      end
  | RecordClick => toggleRecording
  | ResetClick => resetRecording
  | DownloadClick now => downloadVideo now
  | MicClick => toggleMicrophone
  | DataAvailable r data =>
      p ← getEnv;
      if recorder_fires p r then ondataavailable data else mret ()
  | RecorderStop r =>
      p ← getEnv;
      if recorder_stopping p r then
        modEnv (λ p, set_recorders (alter (set_rec_state RecInactive) r (recorders p)) p);;
        onstop
      else mret ()
  | TimerTick t =>
      p ← getEnv;
      if bool_decide (is_Some (intervals p !! t)) then timerCallback else mret ()
  end.

(** The page goes on after a handler ends, normally or not. *)
Definition step (e : Event) (s : State) : State := after (dispatch e s).

Fixpoint run (es : list Event) (s : State) : State :=
  match es with
  | [] => s
  | e :: es => run es (step e s)
  end.

(** Whether the page offers the control an event comes from: a hidden or
    disabled button takes no click.  Platform callbacks need no control. *)
Definition offered (e : Event) (s : State) : bool :=
  match e with
  | RecordClick =>
      negb (recordButton_hidden (page s)) && negb (recordButton_disabled (page s))
  | ResetClick => negb (resetButton_hidden (page s))
  | DownloadClick _ => negb (downloadButton_hidden (page s))
  | _ => true
  end.

Fixpoint all_offered (es : list Event) (s : State) : bool :=
  match es with
  | [] => true
  | e :: es => offered e s && all_offered es (step e s)
  end.

(** The page as the script finds it: the variables as lines 2-10 initialise
    them, no platform object yet, and the controls in their preview
    arrangement with the record button disabled until a camera is there (the
    markup is not part of the script; [initializeCamera] enables the button
    and [switchToPreviewMode] restores this arrangement). *)
Definition init : State :=
  mkState
    (mkGlobals None None [] false None true 0 None true)
    (mkPlatform ∅ ∅ ∅ ∅ [] 1 [] [])
    (mkDom false None true None false true false true true true true "").

(** ** The session as the specification sees it

    The script has no state variable; the state of section 4.2 is read off
    [isRecording] and [recordedVideoUrl].  Between [stop()] and the
    recorder's stop event no artifact exists yet and the session counts as
    idle. *)

Inductive SessionState := Idle | Recording | Stopped.

(** Recording while [isRecording]; otherwise stopped when a finished artifact
    is held, idle when none is. *)
Definition sessionState (s : State) : SessionState :=
  if isRecording (js s) then Recording
  else match recordedVideoUrl (js s) with
       | Some _ => Stopped
       | None => Idle
       end.

Inductive ViewMode := Preview | Playback.

Definition viewMode (s : State) : ViewMode :=
  if isPreviewMode (js s) then Preview else Playback.

(** Streams with a live track. *)
Definition activeStreams (s : State) : gmap nat (list Track) :=
  filter (λ kv, stream_active kv.2 = true) (streams (env s)).

(** Blob URLs created and not revoked. *)
Definition outstandingArtifacts (s : State) : nat := size (objectUrls (env s)).

(** ** The question list (script.js, lines 11-19, 171-174, 237-246)

    [currentQuestion] and the two elements of the question panel are read
    and written by [nextQuestion] and [updateQuestionDisplay] only, so they
    form a state of their own. *)

Definition questions : list string :=
  [ "Tell me about yourself and your background.";
    "What are your greatest strengths and how do they apply to this role?";
    "Describe a challenging situation you faced and how you overcame it.";
    "Where do you see yourself in 5 years?";
    "Why are you interested in this position and our company?" ].

Record Quiz := mkQuiz {
  currentQuestion : nat;
  questionNumber_text : string;
  questionText_text : string }.

(** Lines 237-243.  [questions[i]] is [undefined] for an index out of range,
    which [textContent] takes as the empty text. *)
Definition updateQuestionDisplay (q : Quiz) : Quiz :=
  mkQuiz (currentQuestion q)
    ("Question " +:+ pretty (currentQuestion q + 1) +:+ " of " +:+
     pretty (length questions))
    (default "" (questions !! currentQuestion q)).

(** Lines 171-174. *)
Definition nextQuestion (q : Quiz) : Quiz :=
  updateQuestionDisplay
    (mkQuiz ((currentQuestion q + 1) mod length questions)
       (questionNumber_text q) (questionText_text q)).

(** The panel once the script has run to its last line (lines 11 and 246),
    whatever the markup put in the two elements. *)
Definition quiz_loaded (number text : string) : Quiz :=
  updateQuestionDisplay (mkQuiz 0 number text).

(** ** Page navigation (script.js, lines 39-55)

    The document as [showPage] sees it: its elements in document order, each
    with its id, whether it carries the classes [page] and [nav-tab], and
    whether it carries the class [active]. *)

Record Element := mkElement {
  el_id : string;
  el_page : bool;
  el_tab : bool;
  el_active : bool }.

Definition set_active (b : bool) (e : Element) : Element :=
  mkElement (el_id e) (el_page e) (el_tab e) b.

Inductive JsError := TypeError.

Inductive Outcome :=
| Done (doc : list Element)
| Threw (e : JsError) (doc : list Element).

Definition document_of (o : Outcome) : list Element :=
  match o with Done d => d | Threw _ d => d end.

(** [querySelectorAll(sel).forEach((x) => x.classList.remove("active"))] *)
Definition deactivate_all (sel : Element → bool) (doc : list Element) : list Element :=
  map (λ e, if sel e then set_active false e else e) doc.

(** [document.getElementById(id)]: the position of the first element with
    that id, [null] when there is none. *)
Fixpoint getElementById (id : string) (doc : list Element) : option nat :=
  match doc with
  | [] => None
  | e :: doc =>
      if String.eqb (el_id e) id then Some 0
      else S <$> getElementById id doc
  end.

(** [x.classList.add("active")] on the element at position [i]. *)
Definition activate (i : nat) (doc : list Element) : list Element :=
  alter (set_active true) i doc.

(** Lines 39-55.  [target] is the position of [event.target]; [None] when
    no event is being dispatched and [event] is [undefined]. *)
Definition showPage (pageId : string) (target : option nat) (doc : list Element)
  : Outcome :=
  let doc1 := deactivate_all el_page doc in
  let doc2 := deactivate_all el_tab doc1 in
  match getElementById (pageId +:+ "-page") doc2 with
  | None => Threw TypeError doc2
  | Some p =>
      let doc3 := activate p doc2 in
      match target with
      | None => Threw TypeError doc3
      | Some t => Done (activate t doc3)
      end
  end.

(** ** What the page shows *)

(** The text [updateRecordingTime] writes for a counter value. *)
Definition recordingTimeString (t : nat) : string :=
  "REC " +:+ padStart0 2 (pretty (t / 60)) +:+ ":" +:+ padStart0 2 (pretty (t mod 60)).

(** The recording indicator shows the counter's current value. *)
Definition display_in_sync (s : State) : Prop :=
  recordingTime_text (page s) = recordingTimeString (recordingTime (js s)).

(** The audio tracks of the held stream are enabled exactly when the
    microphone flag, and with it the microphone button, says so. *)
Definition mic_in_sync (s : State) : Prop :=
  ∀ st ts t, stream (js s) = Some st → streams (env s) !! st = Some ts →
    t ∈ ts → is_audio t = true → enabled t = isMicEnabled (js s).


(** The ticks of timer [t] among a list of callbacks. *)
Fixpoint ticks_of (t : nat) (es : list Event) : nat :=
  match es with
  | [] => 0
  | TimerTick t' :: es => (if bool_decide (t' = t) then 1 else 0) + ticks_of t es
  | _ :: es => ticks_of t es
  end.

Definition is_grant (e : Event) : bool :=
  match e with MediaGranted _ => true | _ => false end.

Definition has_colon (s : string) : bool :=
  existsb (λ c, Ascii.eqb c ":") (String.list_ascii_of_string s).

Close Scope string_scope.

(** ** Invariants of the page *)

(** The timers that should be armed: the held one while recording, none
    otherwise. *)
Definition armed (g : Globals) : gmap nat N :=
  if isRecording g
  then match timerInterval g with Some t => {[t := 1000%N]} | None => ∅ end
  else ∅.

Definition held_stream_active (s : State) : Prop :=
  ∀ st, stream (js s) = Some st →
    ∃ ts, streams (env s) !! st = Some ts ∧ stream_active ts = true.

(** The script holds a stream with a live track. *)
Definition has_active_source (s : State) : bool :=
  match stream (js s) with
  | Some st =>
      match streams (env s) !! st with
      | Some ts => stream_active ts
      | None => false
      end
  | None => false
  end.

(** What every state the page reaches satisfies, whatever the order of
    clicks and callbacks: the view is Preview exactly when no artifact is
    held, the armed timers are the ones [armed] names, a recording holds its
    timer and its recorder, and a held stream is active. *)
Record Inv (s : State) : Prop := mkInv {
  inv_mode : isPreviewMode (js s) = true ↔ recordedVideoUrl (js s) = None;
  inv_timer : intervals (env s) = armed (js s);
  inv_held : isRecording (js s) = true →
             is_Some (timerInterval (js s)) ∧ is_Some (mediaRecorder (js s));
  inv_stream : held_stream_active s }.

(** Events that neither start a recording nor reset the session. *)
Definition quiet (e : Event) : Prop :=
  match e with
  | RecordClick | ResetClick => False
  | _ => True
  end.

(** The callbacks of one recording phase: fragments of recorder [r] and timer
    ticks, in any interleaving. *)
Definition phase_callback (r : nat) (e : Event) : Prop :=
  match e with
  | DataAvailable r' _ => r' = r
  | TimerTick _ => True
  | _ => False
  end.

Fixpoint fragments (es : list Event) : list Blob :=
  match es with
  | [] => []
  | DataAvailable _ d :: es => d :: fragments es
  | _ :: es => fragments es
  end.

#[global] Instance RecorderState_eq_dec : EqDecision RecorderState.
Proof. solve_decision. Defined.

(** No recorder still owes its stop event. *)
Definition no_stop_pending (s : State) : bool :=
  bool_decide (map_Forall (λ _ rc, rec_state rc ≠ RecStopping) (recorders (env s))).

(** A recording may start cleanly: no artifact is held and no recorder still
    owes its stop event. *)
Definition starts_cleanly (s : State) : bool :=
  bool_decide (recordedVideoUrl (js s) = None) && no_stop_pending s.

(** Every click that starts a recording finds the session clean. *)
Fixpoint disciplined (es : list Event) (s : State) : bool :=
  match es with
  | [] => true
  | e :: es =>
      match e with
      | RecordClick => isRecording (js s) || starts_cleanly s
      | _ => true
      end && disciplined es (step e s)
  end.

(** Every stop event is delivered before the next recording is started. *)
Fixpoint prompt (es : list Event) (s : State) : bool :=
  match es with
  | [] => true
  | e :: es =>
      match e with
      | RecordClick => isRecording (js s) || no_stop_pending s
      | _ => true
      end && prompt es (step e s)
  end.

(** What the page's controls ensure: while an artifact is held the record
    button is hidden. *)
Definition gated (s : State) : Prop :=
  recordedVideoUrl (js s) ≠ None → recordButton_hidden (page s) = true.

(** What holds along disciplined runs: only the held recorder records or
    owes a stop event, never while an artifact is held, and the blob URL
    store holds the held artifact and nothing else. *)
Record Clean (s : State) : Prop := mkClean {
  clean_recording : ∀ r rc, recorders (env s) !! r = Some rc →
      rec_state rc = RecRecording →
      isRecording (js s) = true ∧ mediaRecorder (js s) = Some r;
  clean_stopping : ∀ r rc, recorders (env s) !! r = Some rc →
      rec_state rc = RecStopping →
      isRecording (js s) = false ∧ recordedVideoUrl (js s) = None ∧
      mediaRecorder (js s) = Some r;
  clean_urls : match recordedVideoUrl (js s) with
               | Some u => ∃ b, objectUrls (env s) = {[u := b]}
               | None => objectUrls (env s) = ∅
               end;
  clean_current : isRecording (js s) = true →
      recordedVideoUrl (js s) = None ∧
      ∃ r rc, mediaRecorder (js s) = Some r ∧
              recorders (env s) !! r = Some rc ∧ rec_state rc = RecRecording }.

(** ** What the page keeps in step

    Properties of a state that the handlers maintain, beside [Inv]. *)

(** The controls show the script's variables. *)
Record Shown (s : State) : Prop := mkShown {
  shown_record : recordButton_stop (page s) = isRecording (js s);
  shown_indicator : recordingIndicator_hidden (page s) = negb (isRecording (js s));
  shown_mic : micButton_enabled (page s) = isMicEnabled (js s);
  shown_disabled : recordButton_disabled (page s) = bool_decide (stream (js s) = None);
  shown_source : cameraVideo_srcObject (page s) = stream (js s);
  shown_camera : cameraVideo_hidden (page s) = negb (isPreviewMode (js s));
  shown_playback : playbackVideo_hidden (page s) = isPreviewMode (js s);
  shown_reset : resetButton_hidden (page s) = isPreviewMode (js s);
  shown_download : downloadButton_hidden (page s) = isPreviewMode (js s);
  shown_src : isPreviewMode (js s) = false →
              playbackVideo_src (page s) = recordedVideoUrl (js s);
  shown_registered : ∀ u, recordedVideoUrl (js s) = Some u →
              is_Some (objectUrls (env s) !! u) }.

(** No camera has been granted: nothing of a recording exists. *)
Record NoCamera (s : State) : Prop := mkNoCamera {
  nocam_stream : stream (js s) = None;
  nocam_recording : isRecording (js s) = false;
  nocam_url : recordedVideoUrl (js s) = None;
  nocam_recorder : mediaRecorder (js s) = None;
  nocam_chunks : recordedChunks (js s) = [];
  nocam_time : recordingTime (js s) = 0;
  nocam_recorders : recorders (env s) = ∅;
  nocam_urls : objectUrls (env s) = ∅;
  nocam_intervals : intervals (env s) = ∅;
  nocam_streams : streams (env s) = ∅;
  nocam_disabled : recordButton_disabled (page s) = true }.


(** A tick of a timer that is armed, the only event that runs the interval
    callback. *)
Definition armed_tick (e : Event) (s : State) : bool :=
  match e with
  | TimerTick t => bool_decide (is_Some (intervals (env s) !! t))
  | _ => false
  end.

(** An element after the two [forEach] loops of [showPage]: a page or a
    nav-tab has lost [active], any other element is as it was. *)
Definition cleared (e : Element) : Element :=
  if el_page e || el_tab e then set_active false e else e.

(** A document with two tabs and two pages, the first of each active. *)
Definition sample_document : list Element :=
  [ mkElement "home-tab" false true true;
    mkElement "record-tab" false true false;
    mkElement "home-page" true false true;
    mkElement "record-page" true false false ]%string.

(** ** Proof tools *)

Ltac eff_unfold :=
  unfold mbind, mret, Eff_bind, Eff_ret, eff_bind, eff_ret, throw,
    getJs, getEnv, modJs, modEnv, modDom, freshHandle in *.

Ltac script_unfold :=
  unfold step, dispatch, toggleRecording, startRecording, stopRecording,
    resetRecording, downloadVideo, toggleMicrophone, beforeunload,
    timerCallback, onstop, ondataavailable, switchToPlaybackMode,
    switchToPreviewMode, updateRecordingTime, updateMicrophoneUI,
    updateRecordingUI, initializeCamera, initializeCamera_fulfilled,
    initializeCamera_rejected, getUserMedia, new_MediaStream,
    new_MediaRecorder, MediaRecorder_start, MediaRecorder_stop,
    URL_createObjectURL, URL_revokeObjectURL, setInterval, clearInterval,
    stop_all_tracks, set_audio_tracks_enabled, alert, click_download_anchor
    in *.

Ltac eff := script_unfold; eff_unfold; cbn in *.

(** Rewrite with the equations at hand until the goal is stable. *)
Ltac crunch :=
  repeat (cbn; match goal with
               | H : ?x = _ |- context [?x] => rewrite H
               end); cbn.

(** Split on the innermost scrutinee the goal is stuck on. *)
Ltac eff_cases :=
  repeat (cbn in *;
          match goal with
          | |- context [match ?x with _ => _ end] =>
              lazymatch x with
              | context [match _ with _ => _ end] => fail
              | _ => destruct x eqn:?
              end
          end);
  cbn in *.

Ltac inv_fields :=
  split; unfold held_stream_active, armed in *; crunch; auto; try done.

(** ** Net effect of the handlers *)

Lemma startRecording_net s st ts :
  stream (js s) = Some st →
  streams (env s) !! st = Some ts → stream_active ts = true →
  startRecording s =
    Normal ()
      (mkState
         (mkGlobals (Some st) (Some (nextHandle (env s))) [] true
            (recordedVideoUrl (js s)) (isMicEnabled (js s)) 0
            (Some (S (nextHandle (env s)))) (isPreviewMode (js s)))
         (mkPlatform (streams (env s))
            (<[nextHandle (env s) := mkRecorder st RecRecording]>
               (recorders (env s)))
            (objectUrls (env s))
            (<[S (nextHandle (env s)) := 1000%N]> (intervals (env s)))
            (pendingMedia (env s)) (S (S (nextHandle (env s))))
            (alerts (env s)) (downloads (env s)))
         (set_recordingIndicator_hidden false
            (set_recordButton_hidden false
               (set_recordButton_stop true (page s))))).
Proof.
  intros Hst Hts Hact. eff. rewrite Hst. cbn.
  unfold recorder_stream_active. cbn. rewrite lookup_insert_eq. cbn.
  rewrite Hts, Hact. cbn. do 2 f_equal.
  - unfold set_timerInterval, set_recordingTime, set_isRecording,
      set_mediaRecorder, set_recordedChunks. cbn. by rewrite Hst.
  - unfold set_intervals, set_nextHandle, set_recorders. cbn.
    by rewrite alter_insert_eq.
Qed.

Lemma stopRecording_net s r :
  mediaRecorder (js s) = Some r → isRecording (js s) = true →
  stopRecording s =
    Normal ()
      (mkState
         (set_isRecording false (js s))
         (mkPlatform (streams (env s))
            (alter stop_rec r (recorders (env s)))
            (objectUrls (env s))
            (match timerInterval (js s) with
             | Some t => delete t (intervals (env s))
             | None => intervals (env s)
             end)
            (pendingMedia (env s)) (nextHandle (env s))
            (alerts (env s)) (downloads (env s)))
         (set_recordingIndicator_hidden true
            (set_recordButton_hidden false
               (set_recordButton_stop false (page s))))).
Proof.
  intros Hr Hrec. eff. rewrite Hr, Hrec.
  by destruct (timerInterval (js s)).
Qed.

Lemma recorder_stop_net s r :
  recorder_stopping (env s) r = true →
  step (RecorderStop r) s =
    mkState
      (set_isPreviewMode false
         (set_recordedVideoUrl (Some (nextHandle (env s))) (js s)))
      (mkPlatform (streams (env s))
         (alter (set_rec_state RecInactive) r (recorders (env s)))
         (<[nextHandle (env s) := new_Blob (recordedChunks (js s)) "video/webm"]>
            (objectUrls (env s)))
         (intervals (env s)) (pendingMedia (env s))
         (S (nextHandle (env s))) (alerts (env s)) (downloads (env s)))
      (set_downloadButton_hidden false
         (set_resetButton_hidden false
            (set_recordButton_hidden true
               (set_playbackVideo_src (Some (nextHandle (env s)))
                  (set_playbackVideo_hidden false
                     (set_cameraVideo_hidden true (page s))))))).
Proof. intros Hst. eff. by rewrite Hst. Qed.

Lemma recorder_stop_idle s r :
  recorder_stopping (env s) r = false → step (RecorderStop r) s = s.
Proof. intros Hst. eff. by rewrite Hst. Qed.

Lemma resetRecording_net s :
  resetRecording s =
    Normal ()
      (mkState
         (set_isPreviewMode true
            (set_recordingTime 0
               (set_recordedChunks [] (set_recordedVideoUrl None (js s)))))
         (mkPlatform (streams (env s)) (recorders (env s))
            (match recordedVideoUrl (js s) with
             | Some u => delete u (objectUrls (env s))
             | None => objectUrls (env s)
             end)
            (intervals (env s))
            (pendingMedia (env s) ++ [isMicEnabled (js s)])
            (nextHandle (env s)) (alerts (env s)) (downloads (env s)))
         (set_downloadButton_hidden true
            (set_resetButton_hidden true
               (set_recordButton_hidden false
                  (set_playbackVideo_hidden true
                     (set_cameraVideo_hidden false (page s))))))).
Proof.
  eff. destruct (recordedVideoUrl (js s)) eqn:Hu; cbn; [done|].
  do 2 f_equal. destruct (js s); cbn in *. by subst.
Qed.

Lemma stream_active_enable_audio b ts :
  stream_active (map (enable_audio b) ts) = stream_active ts.
Proof.
  unfold stream_active. induction ts as [|t ts IH]; [reflexivity|].
  cbn. rewrite IH. f_equal. unfold enable_audio. destruct (is_audio t); reflexivity.
Qed.

Lemma Inv_init : Inv init.
Proof.
  split; cbn; try done.
Qed.

Lemma Inv_step e s : Inv s → Inv (step e s).
Proof.
  intros [Hm Ht Hh Hs]. unfold held_stream_active, armed in *.
  destruct e; eff.
  - inv_fields.
  - destruct (pendingMedia (env s) !! i) eqn:E; cbn; inv_fields.
    intros st [= <-]. rewrite lookup_insert_eq. eexists; split; eauto.
  - destruct (pendingMedia (env s) !! i) eqn:E; cbn; inv_fields.
  - destruct (isRecording (js s)) eqn:Hrec; cbn.
    + destruct (Hh eq_refl) as [[t Et] [r Er]].
      inv_fields. apply delete_singleton_eq.
    + destruct (stream (js s)) as [st|] eqn:Est; cbn.
      * destruct (Hs st eq_refl) as (ts & Hts & Hact).
        unfold recorder_stream_active; cbn. rewrite lookup_insert_eq; cbn.
        inv_fields.
      * inv_fields.
  - destruct (recordedVideoUrl (js s)) eqn:Eu; inv_fields.
  - destruct (recordedVideoUrl (js s)) eqn:Eu; inv_fields.
  - destruct (stream (js s)) as [st|] eqn:Est; inv_fields.
    intros st' [= <-]. destruct (Hs st eq_refl) as (ts & Hts & Hact).
    rewrite lookup_alter_eq, Hts. cbn. eexists; split; eauto.
    by rewrite stream_active_enable_audio.
  - destruct (recorder_fires (env s) r); cbn; [|inv_fields].
    unfold ondataavailable. case_bool_decide; eff; inv_fields.
  - destruct (recorder_stopping (env s) r); cbn; inv_fields.
  - case_bool_decide; inv_fields.
Qed.

Lemma Inv_run es : ∀ s, Inv s → Inv (run es s).
Proof.
  induction es as [|e es IH]; intros s H; [exact H|].
  cbn. apply IH, Inv_step, H.
Qed.

Lemma Inv_reachable es : Inv (run es init).
Proof. apply Inv_run, Inv_init. Qed.

Lemma Clean_init : Clean init.
Proof. split; cbn; try done. Qed.

Lemma starts_cleanly_spec s :
  starts_cleanly s = true →
  recordedVideoUrl (js s) = None ∧
  ∀ r rc, recorders (env s) !! r = Some rc → rec_state rc ≠ RecStopping.
Proof.
  unfold starts_cleanly, no_stop_pending. intros [H1 H2]%andb_prop.
  apply bool_decide_eq_true in H1, H2. split; [done|].
  intros r rc Hr. exact (H2 r rc Hr).
Qed.

Lemma Clean_frame s s' :
  recorders (env s') = recorders (env s) →
  objectUrls (env s') = objectUrls (env s) →
  isRecording (js s') = isRecording (js s) →
  mediaRecorder (js s') = mediaRecorder (js s) →
  recordedVideoUrl (js s') = recordedVideoUrl (js s) →
  Clean s → Clean s'.
Proof.
  intros E1 E2 E3 E4 E5 [Hr Hp Hu Hc].
  split; rewrite ?E1, ?E2, ?E3, ?E4, ?E5; assumption.
Qed.

Lemma Clean_stop s r :
  isRecording (js s) = true → mediaRecorder (js s) = Some r →
  Clean s → Clean (after (stopRecording s)).
Proof.
  intros Hrec Er [Hr Hp Hu Hc].
  destruct (Hc Hrec) as (Hnone & r' & rc & Er' & Elook & Est).
  assert (r' = r) as -> by congruence.
  assert (Clean (mkState (set_isRecording false (js s))
            (set_recorders (alter stop_rec r (recorders (env s))) (env s))
            (page s))) as HC.
  { split; cbn; try done.
    - intros r1 rc1. rewrite lookup_alter. case_decide as Hd; [subst r1|].
      + rewrite Elook. cbn. intros [= <-]. unfold stop_rec. rewrite Est. done.
      + intros Hl Hs'. destruct (Hr r1 rc1 Hl Hs') as [_ Hm]. congruence.
    - intros r1 rc1. rewrite lookup_alter. case_decide as Hd; [subst r1; done|].
      intros Hl Hs'. destruct (Hp r1 rc1 Hl Hs') as [Hf _]. congruence. }
  eff. rewrite Er, Hrec. eff_cases; (eapply Clean_frame; [..|exact HC]); reflexivity.
Qed.

Lemma Clean_start s :
  isRecording (js s) = false → starts_cleanly s = true →
  Clean s → Clean (after (startRecording s)).
Proof.
  intros Hrec [Hnone Hnostop]%starts_cleanly_spec [Hr Hp Hu Hc].
  destruct (stream (js s)) as [st|] eqn:Est; eff; rewrite Est; cbn; [|by split].
  set (r := nextHandle (env s)).
  assert (∀ r1 rc1, recorders (env s) !! r1 = Some rc1 →
                    rec_state rc1 = RecInactive) as Hall.
  { intros r1 rc1 Hl. destruct (rec_state rc1) eqn:E; [done| |].
    - destruct (Hr r1 rc1 Hl E) as [? _]. congruence.
    - destruct (Hnostop r1 rc1 Hl E). }
  unfold recorder_stream_active. cbn. rewrite lookup_insert_eq. cbn.
  eff_cases; split; cbn; rewrite ?Hnone, ?Hrec; try done.
  all: try (rewrite Hnone in Hu; exact Hu).
  all: try (intros r0 rc0; rewrite ?lookup_alter, ?lookup_insert;
            repeat case_decide; subst; cbn; rewrite ?lookup_insert_eq; cbn;
            intros Hl HS; simplify_eq; cbn in *; try done;
            specialize (Hall _ _ Hl); congruence).
  intros _; split; [done|]. eexists r, _. split; [done|].
  rewrite lookup_alter_eq, lookup_insert_eq. cbn. done.
Qed.

Lemma Clean_recorder_stop s r :
  recorder_stopping (env s) r = true →
  Clean s → Clean (step (RecorderStop r) s).
Proof.
  intros Hst [Hr Hp Hu Hc]. eff. rewrite Hst. cbn.
  unfold recorder_stopping in Hst.
  destruct (recorders (env s) !! r) as [rc|] eqn:Elook; [|done]. cbn in Hst.
  destruct (rec_state rc) eqn:Est; try done.
  destruct (Hp r rc Elook Est) as (Hrec & Hnone & Hmr).
  rewrite Hnone in Hu.
  split; cbn; rewrite ?Hrec; try done.
  - intros r1 rc1. rewrite lookup_alter. case_decide as Hd; [subst r1|].
    + rewrite Elook. cbn. intros [= <-]. done.
    + intros Hl Hs'. destruct (Hr r1 rc1 Hl Hs') as [? _]. congruence.
  - intros r1 rc1. rewrite lookup_alter. case_decide as Hd; [subst r1|].
    + rewrite Elook. cbn. intros [= <-]. done.
    + intros Hl Hs'. destruct (Hp r1 rc1 Hl Hs') as (_ & _ & ?). congruence.
  - eexists. rewrite Hu. apply insert_empty.
Qed.

Lemma Clean_reset s : Clean s → Clean (after (resetRecording s)).
Proof.
  intros [Hr Hp Hu Hc]. eff.
  destruct (recordedVideoUrl (js s)) as [u|] eqn:Eu; cbn.
  - destruct Hu as [b Hu]. split; cbn; try done.
    + intros r rc Hl Hs. destruct (Hp r rc Hl Hs) as (? & ? & ?). done.
    + rewrite Hu. apply delete_singleton_eq.
    + intros Hrec. destruct (Hc Hrec) as [? _]. done.
  - split; cbn; rewrite ?Eu; try done.
Qed.

Lemma Clean_step e s :
  match e with
  | RecordClick => isRecording (js s) || starts_cleanly s
  | _ => true
  end = true →
  Clean s → Clean (step e s).
Proof.
  intros Hg Hc. destruct e.
  4:{ unfold step, dispatch, toggleRecording. eff_unfold.
      destruct (isRecording (js s)) eqn:Hrec.
      - destruct (clean_current s Hc Hrec) as (_ & r & _ & Er & _).
        by apply Clean_stop with r.
      - by apply Clean_start. }
  4:{ apply Clean_reset, Hc. }
  7:{ destruct (recorder_stopping (env s) r) eqn:E.
      - by apply Clean_recorder_stop.
      - eff. by rewrite E. }
  all: eff; unfold ondataavailable; eff_cases.
  all: (eapply Clean_frame; [..|exact Hc]); reflexivity.
Qed.

Lemma Clean_run es : ∀ s, disciplined es s = true → Clean s → Clean (run es s).
Proof.
  induction es as [|e es IH]; intros s Hd Hc; [exact Hc|].
  cbn in Hd. apply andb_prop in Hd as [Hg Hd].
  cbn. apply IH; [exact Hd|]. apply Clean_step; [|exact Hc].
  destruct e; try done.
Qed.

Lemma gated_init : gated init.
Proof. intros H. by destruct H. Qed.

Lemma gated_step e s : offered e s = true → gated s → gated (step e s).
Proof.
  unfold gated. intros Ho Hg. destruct e.
  4:{ assert (recordedVideoUrl (js s) = None) as Hu.
      { destruct (recordedVideoUrl (js s)) eqn:E; [|done].
        cbn in Ho. rewrite Hg in Ho; done. }
      eff. eff_cases; rewrite ?Hu; done. }
  4:{ unfold step, dispatch. rewrite resetRecording_net. cbn. done. }
  7:{ destruct (recorder_stopping (env s) r) eqn:E.
      - by rewrite recorder_stop_net.
      - by rewrite recorder_stop_idle. }
  all: eff; unfold ondataavailable; eff_cases.
  all: first [exact Hg | intros Hn; apply Hg; congruence].
Qed.

(** Clicks on shown controls with prompt stop events make a disciplined run. *)
Lemma offered_prompt_disciplined es : ∀ s,
  gated s → all_offered es s = true → prompt es s = true →
  disciplined es s = true.
Proof.
  induction es as [|e es IH]; intros s Hg Ho Hp; [done|].
  cbn in *. apply andb_prop in Ho as [Ho Hos]. apply andb_prop in Hp as [Hp Hps].
  apply andb_true_intro. split.
  - destruct e; try done. cbn in Ho.
    destruct (isRecording (js s)); [done|]. cbn in *.
    unfold starts_cleanly. rewrite Hp, andb_true_r.
    apply bool_decide_eq_true. unfold gated in Hg.
    destruct (recordedVideoUrl (js s)); [|done].
    rewrite Hg in Ho; done.
  - apply IH; [by apply gated_step|done..].
Qed.

Lemma Clean_outstanding s : Clean s → outstandingArtifacts s ≤ 1.
Proof.
  intros [_ _ Hu _]. unfold outstandingArtifacts.
  destruct (recordedVideoUrl (js s)).
  - destruct Hu as [b ->]. rewrite map_size_singleton. lia.
  - rewrite Hu, map_size_empty. lia.
Qed.

(** ** File names *)

Lemma digit_not_colon n : Ascii.eqb (digit n) ":" = false.
Proof.
  unfold digit.
  destruct (n mod 10) as [|[|[|[|[|[|[|[|[|?]]]]]]]]]; reflexivity.
Qed.

Lemma download_name_form now :
  (0 ≤ year now ≤ 9999)%Z →
  download_name now =
    ("interview-recording-" +:+ digits4 (Z.to_nat (year now)) +:+ "-" +:+
     digits2 (month now) +:+ "-" +:+ digits2 (day now) +:+ "T" +:+
     digits2 (hours now) +:+ "-" +:+ digits2 (minutes now) +:+ "-" +:+
     digits2 (seconds now) +:+ ".webm")%string.
Proof.
  intros Hy. unfold download_name, toISOString.
  rewrite bool_decide_eq_true_2 by exact Hy.
  unfold digits4, digits3, digits2. cbv [String.append slice0 replace_colons].
  rewrite !digit_not_colon. reflexivity.
Qed.

(** ** Guards of start and stop *)

Lemma startRecording_without_stream s :
  stream (js s) = None → startRecording s = Normal () s.
Proof. intros H. eff. by rewrite H. Qed.

Lemma stopRecording_not_recording s :
  isRecording (js s) = false → stopRecording s = Normal () s.
Proof. intros H. eff. rewrite H. by destruct (mediaRecorder (js s)). Qed.

Lemma no_active_source_no_stream s :
  Inv s → has_active_source s = false → stream (js s) = None.
Proof.
  intros HI Hn. unfold has_active_source in Hn.
  destruct (stream (js s)) as [st|] eqn:E; [|done].
  destruct (inv_stream s HI st E) as (ts & Hts & Hact).
  rewrite Hts, Hact in Hn. done.
Qed.

Lemma sessionState_not_recording s :
  sessionState s ≠ Recording → isRecording (js s) = false.
Proof. unfold sessionState. by destruct (isRecording (js s)). Qed.

(** C6 as the claim has it fails on a stream that is held but has no live
    track.  The guard of [startRecording] (line 86) asks whether a stream is
    held, not whether it is active.  Here the camera was granted and the
    tracks of the held stream have ended, stopped by the script's own
    [beforeunload] listener as they would be by an unplugged camera: no
    MediaSource is active, and [startRecording] passes its guard, empties the
    fragment list, replaces the recorder and throws NotSupportedError out of
    [mediaRecorder.start()]. *)
Lemma startRecording_on_ended_stream_throws :
  let s := after (beforeunload (run [WindowLoad; MediaGranted 0] init)) in
  stream (js s) = Some 1 ∧
  streams (env s) !! 1 =
    Some [mkTrack VideoTrack true false; mkTrack AudioTrack true false] ∧
  has_active_source s = false ∧
  sessionState s = Idle ∧
  mediaRecorder (js s) = None ∧
  (∃ s', startRecording s = Abrupt NotSupportedError s' ∧
         mediaRecorder (js s') = Some 2 ∧ s' ≠ s).
Proof.
  cbn zeta. do 5 (split; [reflexivity|]).
  eexists. split; [reflexivity|]. split; [reflexivity|].
  intros H. apply (f_equal (λ x, mediaRecorder (js x))) in H. discriminate H.
Qed.

(** C6, amended: the illegal transitions are no-ops that return normally.
    [start()] with no stream held returns at its guard with the state as it
    was, and so it does in every state the page's events lead to in which no
    MediaSource is active, because there a held stream is an active one;
    [stop()] in a state that is not Recording returns with the state as it
    was. *)
Theorem illegal_transitions_are_noops :
  (∀ s, stream (js s) = None → startRecording s = Normal () s) ∧
  (∀ es, has_active_source (run es init) = false →
         startRecording (run es init) = Normal () (run es init)) ∧
  (∀ s, sessionState s ≠ Recording → stopRecording s = Normal () s).
Proof.
  split; [exact startRecording_without_stream|split].
  - intros es Hn. apply startRecording_without_stream.
    apply no_active_source_no_stream; [apply Inv_reachable|exact Hn].
  - intros s Hs. apply stopRecording_not_recording.
    by apply sessionState_not_recording.
Qed.

(** C6 at the page as loaded, before any camera is granted. *)
Lemma illegal_transitions_witness :
  startRecording (run [WindowLoad] init) = Normal () (run [WindowLoad] init) ∧
  stopRecording init = Normal () init.
Proof.
  destruct illegal_transitions_are_noops as (_ & Hstart & Hstop).
  split; [apply (Hstart [WindowLoad]); reflexivity|].
  apply Hstop. discriminate.
Defined.

(** ** Download *)

(** C9: in the Stopped state [download()] hands the held Artifact to the
    browser under the name [interview-recording-YYYY-MM-DDTHH-MM-SS.webm]
    (the ISO 8601 time of the click cut after the seconds, colons turned into
    hyphens), and changes nothing else: the script's variables, the page and
    the blob URL store stay as they were. *)
Theorem download_emits_named_artifact s now :
  sessionState s = Stopped → (0 ≤ year now ≤ 9999)%Z →
  ∃ u, recordedVideoUrl (js s) = Some u ∧
    downloadVideo now s =
      Normal () (mkState (js s)
                   (set_downloads
                      (downloads (env s) ++
                       [(("interview-recording-" +:+
                          digits4 (Z.to_nat (year now)) +:+ "-" +:+
                          digits2 (month now) +:+ "-" +:+
                          digits2 (day now) +:+ "T" +:+
                          digits2 (hours now) +:+ "-" +:+
                          digits2 (minutes now) +:+ "-" +:+
                          digits2 (seconds now) +:+ ".webm")%string, u)])
                      (env s))
                   (page s)) ∧
    sessionState (after (downloadVideo now s)) = Stopped ∧
    recordedChunks (js (after (downloadVideo now s))) = recordedChunks (js s) ∧
    recordingTime (js (after (downloadVideo now s))) = recordingTime (js s) ∧
    recordedVideoUrl (js (after (downloadVideo now s))) = Some u ∧
    objectUrls (env (after (downloadVideo now s))) = objectUrls (env s).
Proof.
  intros Hst Hy. unfold sessionState in Hst.
  destruct (isRecording (js s)) eqn:Hrec; [done|].
  destruct (recordedVideoUrl (js s)) as [u|] eqn:Hu; [|done].
  exists u. split; [done|].
  assert (downloadVideo now s =
          Normal () (mkState (js s)
            (set_downloads (downloads (env s) ++ [(download_name now, u)]) (env s))
            (page s))) as Heq.
  { eff. by rewrite Hu. }
  rewrite Heq, download_name_form by exact Hy. cbn.
  unfold sessionState. cbn. by rewrite Hrec, Hu.
Qed.

(** C9 after a finished recording, on 7 March 2024 at 09:05:59.123 UTC. *)
Lemma download_witness :
  downloads (env (after (downloadVideo (mkDate 2024 3 7 9 5 59 123)
      (run [WindowLoad; MediaGranted 0; RecordClick; RecordClick; RecorderStop 2]
         init)))) =
  [("interview-recording-2024-03-07T09-05-59.webm"%string, 4)].
Proof.
  destruct (download_emits_named_artifact
    (run [WindowLoad; MediaGranted 0; RecordClick; RecordClick; RecorderStop 2] init)
    (mkDate 2024 3 7 9 5 59 123)) as (u & Hu & Heq & _);
    [reflexivity|cbn; lia|].
  assert (u = 4) as -> by (vm_compute in Hu; congruence).
  rewrite Heq. vm_compute. reflexivity.
Defined.

(** ** Microphone *)

(** C10 does not hold as stated: with no stream held the call still flips
    [isMicEnabled] and the microphone button. *)
Lemma toggleMicrophone_without_stream_changes_state :
  stream (js init) = None ∧
  has_active_source init = false ∧
  isMicEnabled (js init) = true ∧
  isMicEnabled (js (after (toggleMicrophone init))) = false ∧
  micButton_enabled (page init) = true ∧
  micButton_enabled (page (after (toggleMicrophone init))) = false ∧
  after (toggleMicrophone init) ≠ init.
Proof. repeat split; try reflexivity. discriminate. Qed.

(** C10, amended: [toggleMicrophone] flips [isMicEnabled] and the microphone
    button whether or not a stream is held.  With a stream held it sets the
    [enabled] flag of that stream's audio tracks to the new value in place:
    the held handle, the set of streams, every other stream, every video
    track and every track's liveness stay as they were, and no acquisition is
    requested.  With no stream held no stream or track is touched. *)
Theorem toggleMicrophone_in_place s :
  let b := negb (isMicEnabled (js s)) in
  let s' := after (toggleMicrophone s) in
  returns (toggleMicrophone s) = true ∧
  js s' = set_isMicEnabled b (js s) ∧
  page s' = set_micButton_enabled b (page s) ∧
  pendingMedia (env s') = pendingMedia (env s) ∧
  nextHandle (env s') = nextHandle (env s) ∧
  recorders (env s') = recorders (env s) ∧
  objectUrls (env s') = objectUrls (env s) ∧
  intervals (env s') = intervals (env s) ∧
  dom (streams (env s')) = dom (streams (env s)) ∧
  (∀ st, stream (js s) ≠ Some st →
         streams (env s') !! st = streams (env s) !! st) ∧
  (∀ st, stream (js s) = Some st →
         streams (env s') !! st = map (enable_audio b) <$> streams (env s) !! st) ∧
  (∀ t, kind (enable_audio b t) = kind t ∧ live (enable_audio b t) = live t ∧
        (is_audio t = true → enabled (enable_audio b t) = b) ∧
        (is_audio t = false → enable_audio b t = t)) ∧
  (stream (js s) = None → env s' = env s).
Proof.
  cbn zeta. eff.
  assert (∀ t, kind (enable_audio (negb (isMicEnabled (js s))) t) = kind t ∧
               live (enable_audio (negb (isMicEnabled (js s))) t) = live t ∧
               (is_audio t = true →
                enabled (enable_audio (negb (isMicEnabled (js s))) t) =
                negb (isMicEnabled (js s))) ∧
               (is_audio t = false →
                enable_audio (negb (isMicEnabled (js s))) t = t)) as Htr.
  { intros t. unfold enable_audio.
    destruct (is_audio t); cbn; repeat split; intros; done. }
  destruct (stream (js s)) as [st|] eqn:Est; cbn.
  - repeat split; try done; try apply Htr.
    + apply dom_alter_L.
    + intros st' Hne. apply lookup_alter_ne. congruence.
    + intros st' [= <-]. apply lookup_alter_eq.
  - repeat split; try done; apply Htr.
Qed.

(** C10's amended statement on a page that holds a stream with an audio
    track: the click disables the audio track in place and leaves the video
    track as it was. *)
Lemma toggleMicrophone_witness :
  let s := run [WindowLoad; MediaGranted 0] init in
  stream (js s) = Some 1 ∧
  streams (env s) !! 1 =
    Some [mkTrack VideoTrack true true; mkTrack AudioTrack true true] ∧
  streams (env (after (toggleMicrophone s))) !! 1 =
    Some [mkTrack VideoTrack true true; mkTrack AudioTrack false true].
Proof.
  cbn zeta. split; [reflexivity|split; [reflexivity|]].
  destruct (toggleMicrophone_in_place (run [WindowLoad; MediaGranted 0] init))
    as (_ & _ & _ & _ & _ & _ & _ & _ & _ & _ & Hheld & _).
  rewrite (Hheld 1 eq_refl). reflexivity.
Defined.

(** ** Teardown *)

Lemma stream_active_stopped ts : stream_active (map track_stop ts) = false.
Proof. unfold stream_active. by induction ts. Qed.

(** What the [beforeunload] listener does, in whichever state the session
    is: it returns normally, stops every track of the held stream and clears
    the held timer, and leaves the script's variables and the blob URL store
    as they were.  After it, on every page the events can produce, the held
    stream is not active and no timer is armed. *)
Lemma teardown_stops_tracks_and_timer :
  (∀ s, let s' := after (beforeunload s) in
     returns (beforeunload s) = true ∧
     (∀ st ts, stream (js s) = Some st → streams (env s) !! st = Some ts →
        streams (env s') !! st = Some (map track_stop ts) ∧
        stream_active (map track_stop ts) = false) ∧
     (∀ t, timerInterval (js s) = Some t → intervals (env s') !! t = None) ∧
     intervals (env s') ⊆ intervals (env s) ∧
     js s' = js s ∧
     objectUrls (env s') = objectUrls (env s)) ∧
  (∀ es, let s' := after (beforeunload (run es init)) in
     has_active_source s' = false ∧ intervals (env s') = ∅).
Proof.
  split.
  - intros s. cbn zeta. eff.
    destruct (stream (js s)) as [st|] eqn:Est;
      destruct (timerInterval (js s)) as [t|] eqn:Et; cbn;
      (split; [done|split; [|split; [|split; [|done]]]]).
    all: try (intros st' ts' [= <-] Hts; split; [|apply stream_active_stopped];
              by rewrite lookup_alter_eq, Hts).
    all: try done.
    all: try (intros t' [= <-]; apply lookup_delete_eq).
    all: apply delete_subseteq.
  - intros es. cbn zeta. pose proof (Inv_reachable es) as HI.
    set (s := run es init) in *. split.
    + unfold has_active_source. eff.
      destruct (stream (js s)) as [st|] eqn:Est;
        destruct (timerInterval (js s)) as [t|] eqn:Et; cbn; rewrite ?Est; try done.
      all: rewrite lookup_alter_eq.
      all: destruct (streams (env s) !! st); cbn; [apply stream_active_stopped|done].
    + pose proof (inv_timer s HI) as Ht. unfold armed in Ht. eff.
      destruct (stream (js s)) as [st|] eqn:Est;
        destruct (timerInterval (js s)) as [t|] eqn:Et; cbn; rewrite Ht.
      all: destruct (isRecording (js s));
        rewrite ?delete_singleton_eq, ?delete_empty; done.
Qed.

(** C4, evaluated on a page torn down in the Stopped state.  The listener
    stops the tracks of the held MediaSource and no timer stays armed, but
    the Artifact's blob URL is still held and still registered afterwards:
    the listener revokes nothing, where [resetRecording] revokes the URL
    before it lets go of it. *)
Lemma teardown_keeps_artifact_url :
  let s := run [WindowLoad; MediaGranted 0; RecordClick; RecordClick;
                RecorderStop 2] init in
  let s' := after (beforeunload s) in
  sessionState s = Stopped ∧
  has_active_source s = true ∧ has_active_source s' = false ∧
  intervals (env s') = ∅ ∧
  recordedVideoUrl (js s') = Some 4 ∧
  objectUrls (env s') !! 4 = Some (mkBlob [] "video/webm") ∧
  outstandingArtifacts s' = 1 ∧
  outstandingArtifacts (after (resetRecording s)) = 0.
Proof. cbn zeta. repeat split; vm_compute; reflexivity. Qed.

(** ** Start while recording *)

(** C3 does not hold as stated: [startRecording] has no guard on
    [isRecording].  Called in a Recording state with one fragment and one
    second on the counter, it empties the fragment sequence, zeroes the
    counter, makes a second recorder and arms a second timer beside the
    first. *)
Lemma startRecording_while_recording_restarts :
  let b := mkBlob [Byte.x01] "video/webm;codecs=vp9" in
  let s := run [WindowLoad; MediaGranted 0; RecordClick;
                DataAvailable 2 b; TimerTick 3] init in
  let s' := after (startRecording s) in
  sessionState s = Recording ∧
  recordedChunks (js s) = [b] ∧ recordedChunks (js s') = [] ∧
  recordingTime (js s) = 1 ∧ recordingTime (js s') = 0 ∧
  mediaRecorder (js s) = Some 2 ∧ mediaRecorder (js s') = Some 4 ∧
  size (intervals (env s)) = 1 ∧ size (intervals (env s')) = 2.
Proof. cbn zeta. repeat split; vm_compute; reflexivity. Qed.

(** C3, amended: [startRecording] is entered only through
    [toggleRecording], which while the state is Recording calls
    [stopRecording] instead.  That call creates no recorder, no timer and no
    other object, leaves the fragment sequence and the elapsed counter as
    they were and arms no timer; and in every state the page reaches while
    Recording exactly one timer is armed, the held one.  [startRecording]
    itself is not guarded against a Recording state. *)
Theorem toggle_while_recording_starts_nothing s :
  isRecording (js s) = true →
  toggleRecording s = stopRecording s ∧
  (let s' := after (toggleRecording s) in
   recordedChunks (js s') = recordedChunks (js s) ∧
   recordingTime (js s') = recordingTime (js s) ∧
   mediaRecorder (js s') = mediaRecorder (js s) ∧
   dom (recorders (env s')) = dom (recorders (env s)) ∧
   nextHandle (env s') = nextHandle (env s) ∧
   intervals (env s') ⊆ intervals (env s)) ∧
  (∀ es, s = run es init →
     ∃ t, timerInterval (js s) = Some t ∧ intervals (env s) = {[t := 1000%N]}).
Proof.
  intros Hrec. split; [|split].
  - unfold toggleRecording. eff_unfold. by rewrite Hrec.
  - cbn zeta. eff. rewrite Hrec.
    destruct (mediaRecorder (js s)) as [r|] eqn:Er; cbn; rewrite ?Hrec; cbn;
      [|done].
    destruct (timerInterval (js s)) as [t|] eqn:Et; cbn;
      repeat split; try done; try apply dom_alter_L.
    apply delete_subseteq.
  - intros es ->. pose proof (Inv_reachable es) as HI.
    destruct (inv_held _ HI Hrec) as [[t Et] _]. exists t. split; [done|].
    rewrite (inv_timer _ HI). unfold armed. by rewrite Hrec, Et.
Qed.

(** C3's amended statement at a page that records, with one fragment and one
    second on the counter. *)
Lemma toggle_while_recording_witness :
  let b := mkBlob [Byte.x01] "video/webm;codecs=vp9" in
  let s := run [WindowLoad; MediaGranted 0; RecordClick;
                DataAvailable 2 b; TimerTick 3] init in
  isRecording (js s) = true ∧
  recordedChunks (js (after (toggleRecording s))) = [b] ∧
  recordingTime (js (after (toggleRecording s))) = 1.
Proof.
  cbn zeta. split; [reflexivity|].
  destruct (toggle_while_recording_starts_nothing
    (run [WindowLoad; MediaGranted 0; RecordClick;
          DataAvailable 2 (mkBlob [Byte.x01] "video/webm;codecs=vp9");
          TimerTick 3] init) eq_refl) as (_ & (Hc & Ht & _) & _).
  split; [rewrite Hc|rewrite Ht]; reflexivity.
Defined.

(** ** View mode *)

Lemma viewMode_playback_iff s :
  Inv s → (viewMode s = Playback ↔ recordedVideoUrl (js s) ≠ None).
Proof.
  intros HI. pose proof (inv_mode s HI) as Hm. unfold viewMode.
  destruct (isPreviewMode (js s)); split; try done.
  - intros H. destruct H. by apply Hm.
  - intros _ Hn. apply Hm in Hn. done.
Qed.

(** C7 does not hold as stated.  The view follows the recorder's stop event
    and reset, not the recording flag.  First run: every click is on a control
    the page shows; the stop event of the first recording arrives after the
    next recording was started, and the page is Recording in Playback view.
    Second run: the same state by a click on the record control while an
    artifact is shown. *)
Lemma recording_in_playback_view :
  (let es := [WindowLoad; MediaGranted 0; RecordClick; RecordClick;
              RecordClick; RecorderStop 2] in
   all_offered es init = true ∧ prompt es init = false ∧
   sessionState (run es init) = Recording ∧ viewMode (run es init) = Playback) ∧
  (let es := [WindowLoad; MediaGranted 0; RecordClick; RecordClick;
              RecorderStop 2; RecordClick] in
   sessionState (run es init) = Recording ∧ viewMode (run es init) = Playback).
Proof. cbn zeta. repeat split; vm_compute; reflexivity. Qed.

Lemma viewMode_when_clean s :
  Inv s → Clean s →
  (viewMode s = Playback ↔ sessionState s = Stopped) ∧
  (viewMode s = Preview ↔ sessionState s = Idle ∨ sessionState s = Recording).
Proof.
  intros HI HC. pose proof (viewMode_playback_iff s HI) as Hv.
  pose proof (clean_current s HC) as Hc.
  assert (viewMode s = Preview ↔ viewMode s ≠ Playback) as Hp.
  { unfold viewMode. destruct (isPreviewMode (js s)); split; done. }
  rewrite Hp, Hv. unfold sessionState.
  destruct (isRecording (js s)).
  - destruct (Hc eq_refl) as [-> _]. split; split; try done; auto.
  - destruct (recordedVideoUrl (js s)); split; split; try done; auto.
    + intros H. by destruct H.
    + intros [H|H]; done.
Qed.

(** C7, amended: in every state the page reaches, ViewMode is Playback iff
    an Artifact reference is held.  So Stopped has Playback and Idle has
    Preview, and ViewMode is Playback iff the state is Stopped in every state
    that is not Recording, and in every state at all of a run in which each
    recording starts with no artifact held and no stop event pending; such
    are the runs of clicks on controls the page shows in which each stop
    event arrives before the next recording starts. *)
Theorem viewMode_follows_artifact es :
  let s := run es init in
  (viewMode s = Playback ↔ recordedVideoUrl (js s) ≠ None) ∧
  (sessionState s = Stopped → viewMode s = Playback) ∧
  (sessionState s = Idle → viewMode s = Preview) ∧
  (sessionState s ≠ Recording →
   (viewMode s = Playback ↔ sessionState s = Stopped)) ∧
  (disciplined es init = true →
   (viewMode s = Playback ↔ sessionState s = Stopped) ∧
   (viewMode s = Preview ↔ sessionState s = Idle ∨ sessionState s = Recording)) ∧
  (all_offered es init = true → prompt es init = true →
   (viewMode s = Playback ↔ sessionState s = Stopped) ∧
   (viewMode s = Preview ↔ sessionState s = Idle ∨ sessionState s = Recording)).
Proof.
  cbn zeta. pose proof (Inv_reachable es) as HI.
  pose proof (viewMode_playback_iff _ HI) as Hv.
  set (s := run es init) in *.
  assert (viewMode s = Preview ↔ viewMode s ≠ Playback) as Hp.
  { unfold viewMode. destruct (isPreviewMode (js s)); split; done. }
  split; [exact Hv|].
  split; [|split; [|split; [|split]]].
  - unfold sessionState. destruct (isRecording (js s)); [done|].
    destruct (recordedVideoUrl (js s)); [|done]. intros _. by apply Hv.
  - unfold sessionState. destruct (isRecording (js s)); [done|].
    destruct (recordedVideoUrl (js s)); [done|]. intros _. apply Hp.
    intros H. by apply Hv in H.
  - unfold sessionState. destruct (isRecording (js s)); [done|]. intros _.
    rewrite Hv. destruct (recordedVideoUrl (js s)); split; done.
  - intros Hd. apply viewMode_when_clean; [exact HI|].
    exact (Clean_run es init Hd Clean_init).
  - intros Ho Hq. apply viewMode_when_clean; [exact HI|].
    apply (Clean_run es init); [|exact Clean_init].
    by apply offered_prompt_disciplined; [exact gated_init|..].
Qed.

(** C7's amended statement on a full cycle: record, stop, stop event. *)
Lemma viewMode_witness :
  let es := [WindowLoad; MediaGranted 0; RecordClick; RecordClick;
             RecorderStop 2] in
  disciplined es init = true ∧
  all_offered es init = true ∧ prompt es init = true ∧
  viewMode (run es init) = Playback ∧ sessionState (run es init) = Stopped.
Proof.
  cbn zeta. do 3 (split; [reflexivity|]).
  destruct (viewMode_follows_artifact
    [WindowLoad; MediaGranted 0; RecordClick; RecordClick; RecorderStop 2])
    as (_ & _ & _ & _ & _ & Hs).
  destruct (Hs eq_refl eq_refl) as [[_ Hs'] _].
  split; [apply Hs'|]; reflexivity.
Defined.

(** ** Timer *)

Lemma tick_armed s t :
  is_Some (intervals (env s) !! t) →
  recordingTime (js (step (TimerTick t) s)) = recordingTime (js s) + 1 ∧
  isRecording (js (step (TimerTick t) s)) = isRecording (js s) ∧
  recordedVideoUrl (js (step (TimerTick t) s)) = recordedVideoUrl (js s) ∧
  intervals (env (step (TimerTick t) s)) = intervals (env s).
Proof. intros Hin. eff. by rewrite bool_decide_eq_true_2. Qed.

Lemma tick_cleared s t :
  intervals (env s) !! t = None → step (TimerTick t) s = s.
Proof.
  intros Hin. eff. rewrite bool_decide_eq_false_2; [done|].
  rewrite Hin. by intros [? ?].
Qed.

Lemma quiet_step s e :
  intervals (env s) = ∅ → quiet e →
  recordingTime (js (step e s)) = recordingTime (js s) ∧
  intervals (env (step e s)) = ∅.
Proof.
  intros Hi Hq. destruct e; try (by destruct Hq).
  all: try (rewrite tick_cleared; [done|]; rewrite Hi; apply lookup_empty).
  all: eff; unfold ondataavailable; eff_cases; done.
Qed.

Lemma quiet_run es : ∀ s,
  intervals (env s) = ∅ → Forall quiet es →
  recordingTime (js (run es s)) = recordingTime (js s).
Proof.
  induction es as [|e es IH]; intros s Hi Hq; [done|].
  apply Forall_cons in Hq as [Hq Hqs].
  destruct (quiet_step s e Hi Hq) as [Ht Hi']. cbn.
  rewrite IH by done. exact Ht.
Qed.

(** Without a new start the counter never goes up once no timer is armed. *)
Lemma unstarted_step s e :
  intervals (env s) = ∅ → e ≠ RecordClick →
  recordingTime (js (step e s)) ≤ recordingTime (js s) ∧
  intervals (env (step e s)) = ∅.
Proof.
  intros Hi He. destruct e.
  all: try match goal with
       | |- context [step ResetClick _] =>
           unfold step, dispatch; rewrite resetRecording_net; cbn;
           split; [lia|exact Hi]
       | |- context [step RecordClick _] => by destruct He
       | |- context [step ?e _] =>
           by destruct (quiet_step s e Hi I) as [-> ->]
       end.
Qed.

Lemma unstarted_run es : ∀ s,
  intervals (env s) = ∅ → Forall (λ e, e ≠ RecordClick) es →
  recordingTime (js (run es s)) ≤ recordingTime (js s).
Proof.
  induction es as [|e es IH]; intros s Hi Hq; [done|].
  apply Forall_cons in Hq as [Hq Hqs].
  destruct (unstarted_step s e Hi Hq) as [Ht Hi']. cbn.
  etrans; [apply IH; done|exact Ht].
Qed.

Lemma stop_clears_timer s :
  Inv s → isRecording (js s) = true →
  isRecording (js (after (stopRecording s))) = false ∧
  intervals (env (after (stopRecording s))) = ∅ ∧
  recordingTime (js (after (stopRecording s))) = recordingTime (js s).
Proof.
  intros HI Hrec. pose proof (inv_timer s HI) as Ht. unfold armed in Ht.
  destruct (inv_held s HI Hrec) as [[t Et] [r Er]]. rewrite Hrec, Et in Ht.
  eff. rewrite Er, Hrec, Et. cbn. rewrite Ht.
  repeat split. apply delete_singleton_eq.
Qed.

(** C8: in every Recording state the page reaches exactly one timer is
    armed, with a period of one second; each of its ticks adds exactly 1 to
    the elapsed counter and stays in Recording.  [stop()] leaves Recording
    with no timer armed and the counter as it was; from then on the counter
    keeps that value through every sequence of events other than a new start
    or a reset, and never goes up before a new start. *)
Theorem timer_counts_and_stops es :
  let s := run es init in
  sessionState s = Recording →
  (∃ t, intervals (env s) = {[t := 1000%N]}) ∧
  (∀ t, is_Some (intervals (env s) !! t) →
     recordingTime (js (step (TimerTick t) s)) = recordingTime (js s) + 1 ∧
     sessionState (step (TimerTick t) s) = Recording) ∧
  (let s' := after (stopRecording s) in
   sessionState s' ≠ Recording ∧
   intervals (env s') = ∅ ∧
   recordingTime (js s') = recordingTime (js s) ∧
   (∀ es', Forall quiet es' →
      recordingTime (js (run es' s')) = recordingTime (js s)) ∧
   (∀ es', Forall (λ e, e ≠ RecordClick) es' →
      recordingTime (js (run es' s')) ≤ recordingTime (js s))).
Proof.
  cbn zeta. pose proof (Inv_reachable es) as HI. set (s := run es init) in *.
  intros Hs. assert (isRecording (js s) = true) as Hrec.
  { unfold sessionState in Hs. destruct (isRecording (js s)); [done|].
    by destruct (recordedVideoUrl (js s)). }
  split; [|split].
  - destruct (inv_held s HI Hrec) as [[t Et] _]. exists t.
    rewrite (inv_timer s HI). unfold armed. by rewrite Hrec, Et.
  - intros t Hin. destruct (tick_armed s t Hin) as (Ht & Hr & _).
    split; [exact Ht|]. unfold sessionState. by rewrite Hr, Hrec.
  - destruct (stop_clears_timer s HI Hrec) as (Hr' & Hi' & Ht').
    repeat split; try done.
    + unfold sessionState. rewrite Hr'.
      by destruct (recordedVideoUrl (js (after (stopRecording s)))).
    + intros es' Hq. rewrite quiet_run by done. exact Ht'.
    + intros es' Hq. rewrite <- Ht'. by apply unstarted_run.
Qed.

(** C8 on a recording that saw two ticks: a third tick makes the counter 3;
    after [stop()] a tick of the cleared timer, a late fragment and the
    recorder's stop event leave it at 2. *)
Lemma timer_witness :
  let es := [WindowLoad; MediaGranted 0; RecordClick; TimerTick 3; TimerTick 3] in
  sessionState (run es init) = Recording ∧
  recordingTime (js (step (TimerTick 3) (run es init))) = 3 ∧
  recordingTime (js (run [TimerTick 3; DataAvailable 2 (mkBlob [Byte.x01] "");
                          RecorderStop 2]
                       (after (stopRecording (run es init))))) = 2.
Proof.
  cbn zeta.
  destruct (timer_counts_and_stops
    [WindowLoad; MediaGranted 0; RecordClick; TimerTick 3; TimerTick 3] eq_refl)
    as (_ & Htick & _ & _ & _ & Hquiet & _).
  split; [reflexivity|split].
  - destruct (Htick 3 (ex_intro _ 1000%N eq_refl)) as [-> _]. reflexivity.
  - rewrite Hquiet; [reflexivity|]. repeat constructor.
Defined.

(** ** Fragments and the artifact *)

Lemma ondataavailable_empty d s :
  blob_size d = 0 → ondataavailable d s = Normal () s.
Proof.
  intros H. unfold ondataavailable. rewrite bool_decide_eq_false_2; [done|lia].
Qed.

Lemma ondataavailable_nonempty d s :
  0 < blob_size d →
  ondataavailable d s =
    Normal () (mkState (set_recordedChunks (recordedChunks (js s) ++ [d]) (js s))
                 (env s) (page s)).
Proof. intros H. unfold ondataavailable. by rewrite bool_decide_eq_true_2. Qed.

(** What the callbacks of a recording phase leave alone, and what they add. *)
Lemma phase_run r es : ∀ s,
  Forall (phase_callback r) es → recorder_fires (env s) r = true →
  env (run es s) = env s ∧
  recordedChunks (js (run es s)) =
    recordedChunks (js s) ++ filter (λ b, 0 < blob_size b) (fragments es) ∧
  mediaRecorder (js (run es s)) = mediaRecorder (js s) ∧
  isRecording (js (run es s)) = isRecording (js s) ∧
  timerInterval (js (run es s)) = timerInterval (js s) ∧
  recordedVideoUrl (js (run es s)) = recordedVideoUrl (js s).
Proof.
  induction es as [|e es IH]; intros s Hall Hf.
  { cbn. by rewrite app_nil_r. }
  apply Forall_cons in Hall as [He Hes].
  destruct e; try done; cbn [run fragments].
  - cbn in He. subst r0.
    assert (step (DataAvailable r data) s = after (ondataavailable data s)) as ->.
    { unfold step, dispatch. eff_unfold. by rewrite Hf. }
    destruct (decide (0 < blob_size data)) as [Hpos|Hzero].
    + rewrite ondataavailable_nonempty by done. cbn [after].
      rewrite filter_cons_True by done.
      destruct (IH (mkState
                      (set_recordedChunks (recordedChunks (js s) ++ [data]) (js s))
                      (env s) (page s)) Hes Hf) as (-> & -> & -> & -> & -> & ->).
      cbn. by rewrite <- app_assoc.
    + rewrite ondataavailable_empty by lia. cbn [after].
      rewrite filter_cons_False by done. by apply IH.
  - destruct (intervals (env s) !! t) as [ms|] eqn:Hin.
    + assert (env (step (TimerTick t) s) = env s ∧
              js (step (TimerTick t) s) =
                set_recordingTime (recordingTime (js s) + 1) (js s)) as [He' Hj'].
      { eff. rewrite Hin. by rewrite bool_decide_eq_true_2. }
      destruct (IH (step (TimerTick t) s) Hes) as (-> & -> & -> & -> & -> & ->);
        rewrite ?He', ?Hj'; done.
    + rewrite tick_cleared by done. by apply IH.
Qed.

(** C5: start on an active stream, let the recorder deliver any fragments
    between any timer ticks, stop, let it deliver its last fragments, and take
    its stop event.  The Artifact then held is registered in the URL store
    as a blob of type [video/webm] whose bytes are the bytes of the non-empty
    fragments, in arrival order; and a zero-length fragment returns normally
    and leaves the state as it was. *)
Theorem artifact_is_concatenation_of_fragments s st ts es1 es2 :
  stream (js s) = Some st →
  streams (env s) !! st = Some ts → stream_active ts = true →
  let r := nextHandle (env s) in
  Forall (phase_callback r) es1 → Forall (phase_callback r) es2 →
  let s1 := run es1 (after (startRecording s)) in
  let s2 := run es2 (after (stopRecording s1)) in
  let s3 := step (RecorderStop r) s2 in
  (∃ u, recordedVideoUrl (js s3) = Some u ∧
        objectUrls (env s3) !! u =
          Some (mkBlob
                  (concat (map blob_data
                     (filter (λ b, 0 < blob_size b) (fragments (es1 ++ es2)))))
                  "video/webm") ∧
        playbackVideo_src (page s3) = Some u) ∧
  sessionState s1 = Recording ∧ sessionState s3 = Stopped ∧
  (∀ d s', blob_size d = 0 → ondataavailable d s' = Normal () s').
Proof.
  intros Hst Hts Hact r H1 H2. cbn zeta.
  rewrite (startRecording_net s st ts Hst Hts Hact). cbn [after]. fold r.
  match goal with |- context [run es1 ?x] => set (s0 := x) end.
  assert (recorders (env s0) !! r = Some (mkRecorder st RecRecording)) as Hl0.
  { apply lookup_insert_eq. }
  assert (recorder_fires (env s0) r = true) as Hf0.
  { unfold recorder_fires. by rewrite Hl0. }
  destruct (phase_run r es1 s0 H1 Hf0) as (He1 & Hc1 & Hm1 & Hr1 & Ht1 & Hu1).
  set (s1 := run es1 s0) in *. cbn in Hc1, Hm1, Hr1.
  rewrite (stopRecording_net s1 r Hm1 Hr1). cbn [after].
  match goal with |- context [run es2 ?x] => set (s1' := x) end.
  assert (recorders (env s1') !! r = Some (mkRecorder st RecStopping)) as Hl1.
  { subst s1'. cbn. by rewrite lookup_alter_eq, He1, Hl0. }
  assert (recorder_fires (env s1') r = true) as Hf1.
  { unfold recorder_fires. by rewrite Hl1. }
  destruct (phase_run r es2 s1' H2 Hf1) as (He2 & Hc2 & Hm2 & Hr2 & Ht2 & Hu2).
  set (s2 := run es2 s1') in *. cbn in Hc2, Hr2.
  assert (recorder_stopping (env s2) r = true) as Hst2.
  { unfold recorder_stopping. by rewrite He2, Hl1. }
  assert (fragments (es1 ++ es2) = fragments es1 ++ fragments es2) as Hfr.
  { clear. induction es1 as [|e es1 IH]; [done|]. destruct e; cbn; by rewrite ?IH. }
  rewrite (recorder_stop_net s2 r Hst2).
  split; [|split; [|split]].
  - exists (nextHandle (env s2)). cbn. split; [done|]. split; [|done].
    rewrite lookup_insert_eq. unfold new_Blob.
    by rewrite Hc2, Hc1, Hfr, filter_app.
  - unfold sessionState. by rewrite Hr1.
  - unfold sessionState. cbn. by rewrite Hr2.
  - exact ondataavailable_empty.
Qed.

(** C5 on a recording with the fragments 01 02, an empty one, and 03. *)
Lemma artifact_witness :
  let f1 := mkBlob [Byte.x01; Byte.x02] "video/webm;codecs=vp9" in
  let f0 := mkBlob [] "video/webm;codecs=vp9" in
  let f2 := mkBlob [Byte.x03] "video/webm;codecs=vp9" in
  let s := run [WindowLoad; MediaGranted 0] init in
  let s1 := run [DataAvailable 2 f1; TimerTick 3; DataAvailable 2 f0]
              (after (startRecording s)) in
  let s2 := run [DataAvailable 2 f2] (after (stopRecording s1)) in
  let s3 := step (RecorderStop 2) s2 in
  recordedVideoUrl (js s3) = Some 4 ∧
  objectUrls (env s3) !! 4 =
    Some (mkBlob [Byte.x01; Byte.x02; Byte.x03] "video/webm").
Proof.
  cbn zeta.
  destruct (artifact_is_concatenation_of_fragments
    (run [WindowLoad; MediaGranted 0] init) 1 (user_media_tracks true)
    [DataAvailable 2 (mkBlob [Byte.x01; Byte.x02] "video/webm;codecs=vp9");
     TimerTick 3;
     DataAvailable 2 (mkBlob [] "video/webm;codecs=vp9")]
    [DataAvailable 2 (mkBlob [Byte.x03] "video/webm;codecs=vp9")]
    eq_refl eq_refl eq_refl)
    as ((u & Hu & Hblob & _) & _).
  - repeat constructor.
  - repeat constructor.
  - assert (u = 4) as -> by (vm_compute in Hu; congruence).
    split; [exact Hu|]. refine (eq_trans Hblob _). vm_compute. reflexivity.
Defined.

(** ** Artifact references *)

(** C1 does not hold as stated: the stop handler overwrites
    [recordedVideoUrl] with a new blob URL and revokes nothing.  First run:
    every click is on a control the page shows, two recordings are stopped
    before either stop event arrives, and two blob URLs are outstanding.
    Second run: a recording started from the Stopped state, without a reset,
    ends with two blob URLs outstanding as well. *)
Lemma two_artifacts_outstanding :
  (let es := [WindowLoad; MediaGranted 0; RecordClick; RecordClick;
              RecordClick; RecordClick; RecorderStop 2; RecorderStop 4] in
   all_offered es init = true ∧ prompt es init = false ∧
   outstandingArtifacts (run es init) = 2) ∧
  (let es := [WindowLoad; MediaGranted 0; RecordClick; RecordClick;
              RecorderStop 2; RecordClick; RecordClick; RecorderStop 5] in
   outstandingArtifacts (run es init) = 2).
Proof. cbn zeta. repeat split; vm_compute; reflexivity. Qed.

Lemma reset_releases s u :
  recordedVideoUrl (js s) = Some u →
  recordedVideoUrl (js (after (resetRecording s))) = None ∧
  objectUrls (env (after (resetRecording s))) = delete u (objectUrls (env s)).
Proof. intros Hu. eff. by rewrite Hu. Qed.

(** C1, amended: [reset] releases the held Artifact's blob URL before it
    clears the reference.  Over every run of the page in which each recording
    starts with no artifact held and no stop event of an earlier recording
    pending (the cycle start, stop, reset), at most one blob URL is
    outstanding at any time, and it is the held one; such are the runs of
    clicks on controls the page shows in which each stop event arrives
    before the next recording starts. *)
Theorem at_most_one_artifact_when_disciplined :
  (∀ s u, recordedVideoUrl (js s) = Some u →
     recordedVideoUrl (js (after (resetRecording s))) = None ∧
     objectUrls (env (after (resetRecording s))) !! u = None) ∧
  (∀ es, disciplined es init = true →
     outstandingArtifacts (run es init) ≤ 1 ∧
     ∀ u, is_Some (objectUrls (env (run es init)) !! u) →
          recordedVideoUrl (js (run es init)) = Some u) ∧
  (∀ es, all_offered es init = true → prompt es init = true →
     outstandingArtifacts (run es init) ≤ 1).
Proof.
  split; [|split].
  - intros s u Hu. destruct (reset_releases s u Hu) as [-> ->].
    split; [done|]. apply lookup_delete_eq.
  - intros es Hd. pose proof (Clean_run es init Hd Clean_init) as HC.
    split; [by apply Clean_outstanding|].
    intros u [b Hb]. pose proof (clean_urls _ HC) as Hu.
    destruct (recordedVideoUrl (js (run es init))) as [u'|].
    + destruct Hu as [b' Hu]. rewrite Hu in Hb.
      apply lookup_singleton_Some in Hb as [-> _]. done.
    + rewrite Hu in Hb. by rewrite lookup_empty in Hb.
  - intros es Ho Hq. apply Clean_outstanding, (Clean_run es init);
      [|exact Clean_init].
    by apply offered_prompt_disciplined; [exact gated_init|..].
Qed.

(** C1's amended statement over two full cycles of record, stop and reset. *)
Lemma at_most_one_artifact_witness :
  let es := [WindowLoad; MediaGranted 0; RecordClick; RecordClick;
             RecorderStop 2; ResetClick; MediaGranted 0; RecordClick;
             RecordClick; RecorderStop 6] in
  disciplined es init = true ∧ all_offered es init = true ∧
  prompt es init = true ∧ outstandingArtifacts (run es init) ≤ 1.
Proof.
  cbn zeta. do 3 (split; [vm_compute; reflexivity|]).
  destruct at_most_one_artifact_when_disciplined as (_ & H & _).
  apply (H [WindowLoad; MediaGranted 0; RecordClick; RecordClick;
            RecorderStop 2; ResetClick; MediaGranted 0; RecordClick;
            RecordClick; RecorderStop 6]).
  vm_compute. reflexivity.
Defined.

(** ** Media sources *)

(** C2, evaluated on the page's ordinary cycle (grant, record, stop, stop
    event, reset, grant): every click is on a control the page shows, and
    after the reset two streams have live tracks, the one the script holds
    and the one it held before. *)
Lemma reset_leaves_two_active_streams :
  let es := [WindowLoad; MediaGranted 0; RecordClick; RecordClick;
             RecorderStop 2; ResetClick; MediaGranted 0] in
  all_offered es init = true ∧
  sessionState (run es init) = Idle ∧
  stream (js (run es init)) = Some 5 ∧
  stream_active <$> streams (env (run es init)) !! 1 = Some true ∧
  stream_active <$> streams (env (run es init)) !! 5 = Some true ∧
  size (activeStreams (run es init)) = 2.
Proof. cbn zeta. repeat split; vm_compute; reflexivity. Qed.

(** * The page beyond the session core *)

(** ** What the controls show *)

Lemma Shown_init : Shown init.
Proof. split; try done. Qed.

Ltac shown_fields :=
  split; cbn; intros; simplify_eq; rewrite ?lookup_insert_eq; eauto.

Lemma Shown_step e s : Inv s → Shown s → Shown (step e s).
Proof.
  intros HI [H1 H2 H3 H4 H5 H6 H7 H8 H9 H10 H11].
  destruct e.
  4:{ unfold step, dispatch, toggleRecording. eff_unfold.
      destruct (isRecording (js s)) eqn:Hrec.
      - destruct (inv_held s HI Hrec) as [_ [r Er]].
        rewrite (stopRecording_net s r Er Hrec). shown_fields.
      - destruct (stream (js s)) as [st|] eqn:Est.
        + destruct (inv_stream s HI st Est) as (ts & Hts & Hact).
          rewrite (startRecording_net s st ts Est Hts Hact). shown_fields.
        + rewrite startRecording_without_stream by done.
          cbn [after]. split; rewrite ?Hrec, ?Est; auto. }
  4:{ unfold step, dispatch. rewrite resetRecording_net. shown_fields. }
  7:{ destruct (recorder_stopping (env s) r) eqn:E.
      - rewrite recorder_stop_net by done. shown_fields.
      - rewrite recorder_stop_idle by done. by split. }
  all: eff; unfold ondataavailable; eff_cases.
  all: shown_fields.
  all: solve [crunch; eauto].
Qed.

Lemma Shown_run es : ∀ s, Inv s → Shown s → Shown (run es s).
Proof.
  induction es as [|e es IH]; intros s HI HS; [exact HS|].
  cbn. apply IH; [by apply Inv_step|by apply Shown_step].
Qed.

Lemma Shown_reachable es : Shown (run es init).
Proof. apply Shown_run; [apply Inv_init|apply Shown_init]. Qed.

(** X1: in every state the page reaches the controls show the script's
    variables: the record button reads Stop exactly while recording, the
    recording indicator is visible exactly while recording, the microphone
    button shows the microphone flag, the record button is disabled exactly
    while no stream is held, and the camera element plays the held stream. *)
Theorem controls_reflect_state es :
  let s := run es init in
  recordButton_stop (page s) = isRecording (js s) ∧
  recordingIndicator_hidden (page s) = negb (isRecording (js s)) ∧
  micButton_enabled (page s) = isMicEnabled (js s) ∧
  (recordButton_disabled (page s) = true ↔ stream (js s) = None) ∧
  cameraVideo_srcObject (page s) = stream (js s).
Proof.
  cbn zeta. destruct (Shown_reachable es) as [H1 H2 H3 H4 H5 _ _ _ _ _ _].
  repeat split; try done.
  - rewrite H4. apply bool_decide_eq_true.
  - intros Hn. rewrite H4. by apply bool_decide_eq_true.
Qed.

(** X2: in every state the page reaches exactly one of the camera and the
    playback element is visible.  The playback element is visible exactly in
    Playback view, which is exactly when an artifact is held; the reset and
    download buttons are visible exactly with it; and what it plays is the
    held artifact's blob URL, which is still registered. *)
Theorem one_surface_visible es :
  let s := run es init in
  cameraVideo_hidden (page s) = negb (playbackVideo_hidden (page s)) ∧
  (playbackVideo_hidden (page s) = false ↔ viewMode s = Playback) ∧
  (playbackVideo_hidden (page s) = false ↔ recordedVideoUrl (js s) ≠ None) ∧
  resetButton_hidden (page s) = playbackVideo_hidden (page s) ∧
  downloadButton_hidden (page s) = playbackVideo_hidden (page s) ∧
  (playbackVideo_hidden (page s) = false →
   ∃ u, recordedVideoUrl (js s) = Some u ∧ playbackVideo_src (page s) = Some u ∧
        is_Some (objectUrls (env s) !! u)).
Proof.
  cbn zeta. pose proof (Inv_reachable es) as HI.
  destruct (Shown_reachable es) as [_ _ _ _ _ H6 H7 H8 H9 H10 H11].
  pose proof (inv_mode _ HI) as Hm.
  set (s := run es init) in *. unfold viewMode. rewrite H6, H7, H8, H9.
  assert (isPreviewMode (js s) = false ↔ recordedVideoUrl (js s) ≠ None) as Hm'.
  { rewrite <- Hm. destruct (isPreviewMode (js s)); split; done. }
  split; [done|]. split; [by destruct (isPreviewMode (js s))|].
  split; [exact Hm'|]. split; [done|]. split; [done|].
  intros Hp. destruct (recordedVideoUrl (js s)) as [u|] eqn:Hu.
  - exists u. split; [done|]. split; [by apply H10|by apply H11].
  - apply Hm' in Hp. done.
Qed.

(** X3: in every state the page reaches the download button is offered
    exactly when an artifact is held.  A click on it then saves the held blob
    URL, still registered, under the computed file name; and [downloadVideo]
    run while the button is hidden changes nothing. *)
Theorem offered_download_saves_held_artifact es now :
  let s := run es init in
  (offered (DownloadClick now) s = true ↔ recordedVideoUrl (js s) ≠ None) ∧
  (offered (DownloadClick now) s = true →
   ∃ u, recordedVideoUrl (js s) = Some u ∧
        is_Some (objectUrls (env s) !! u) ∧
        downloads (env (step (DownloadClick now) s)) =
          downloads (env s) ++ [(download_name now, u)]) ∧
  (offered (DownloadClick now) s = false →
   step (DownloadClick now) s = s).
Proof.
  cbn zeta. pose proof (Inv_reachable es) as HI.
  destruct (Shown_reachable es) as [_ _ _ _ _ _ _ _ H9 _ H11].
  pose proof (inv_mode _ HI) as Hm.
  set (s := run es init) in *. cbn [offered]. rewrite H9.
  assert (negb (isPreviewMode (js s)) = true ↔ recordedVideoUrl (js s) ≠ None) as Hm'.
  { rewrite <- Hm. destruct (isPreviewMode (js s)); split; done. }
  split; [exact Hm'|]. split.
  - intros Ho. apply Hm' in Ho.
    destruct (recordedVideoUrl (js s)) as [u|] eqn:Hu; [|done].
    exists u. split; [done|]. split; [by apply H11|].
    eff. by rewrite Hu.
  - intros Ho. assert (recordedVideoUrl (js s) = None) as Hu.
    { apply Hm. by destruct (isPreviewMode (js s)). }
    eff. by rewrite Hu.
Qed.

(** ** Camera, microphone and streams *)

Lemma record_click s :
  step RecordClick s =
  after (if isRecording (js s) then stopRecording s else startRecording s).
Proof.
  unfold step, dispatch, toggleRecording. eff_unfold.
  by destruct (isRecording (js s)).
Qed.

Lemma NoCamera_init : NoCamera init.
Proof. by split. Qed.

Lemma NoCamera_step e s : is_grant e = false → NoCamera s → NoCamera (step e s).
Proof.
  intros Hg HN. pose proof HN as [H1 H2 H3 H3' H3'' H3''' H4 H5 H6 H7 H8].
  destruct e; try done.
  all: try match goal with
       | |- NoCamera (step RecordClick _) =>
           rewrite record_click, H2; by rewrite startRecording_without_stream
       | |- NoCamera (step ResetClick _) =>
           unfold step, dispatch; rewrite resetRecording_net;
           split; cbn; try done; by rewrite H3
       | |- NoCamera (step (RecorderStop _) _) =>
           rewrite recorder_stop_idle; [done|];
           unfold recorder_stopping; by rewrite H4, lookup_empty
       | |- NoCamera (step (TimerTick _) _) =>
           rewrite tick_cleared; [done|]; by rewrite H6, lookup_empty
       | |- NoCamera (step (DataAvailable _ _) _) =>
           eff; unfold recorder_fires; by rewrite H4, lookup_empty
       end.
  all: eff; eff_cases.
  all: split; cbn; try done; crunch; done.
Qed.

Lemma NoCamera_run es : ∀ s,
  Forall (λ e, is_grant e = false) es → NoCamera s → NoCamera (run es s).
Proof.
  induction es as [|e es IH]; intros s Hall HN; [done|].
  apply Forall_cons in Hall as [He Hes]. cbn. apply IH; [done|].
  by apply NoCamera_step.
Qed.

(** X4: as long as no getUserMedia request is fulfilled (denied or still
    pending), whatever else happens, the page holds no stream, the record
    button stays disabled and a click on it changes nothing, the session stays
    Idle, and no stream, recorder, timer, blob URL, fragment or elapsed time
    comes to exist. *)
Theorem no_camera_no_recording es :
  Forall (λ e, is_grant e = false) es →
  let s := run es init in
  stream (js s) = None ∧ has_active_source s = false ∧
  recordButton_disabled (page s) = true ∧ offered RecordClick s = false ∧
  sessionState s = Idle ∧ mediaRecorder (js s) = None ∧
  recorders (env s) = ∅ ∧ streams (env s) = ∅ ∧
  intervals (env s) = ∅ ∧ objectUrls (env s) = ∅ ∧
  recordedChunks (js s) = [] ∧ recordingTime (js s) = 0 ∧
  step RecordClick s = s.
Proof.
  intros Hall. cbn zeta.
  destruct (NoCamera_run es init Hall NoCamera_init)
    as [H1 H2 H3 H3' H3'' H3''' H4 H5 H6 H7 H8].
  set (s := run es init) in *.
  repeat split; try done.
  - unfold has_active_source. by rewrite H1.
  - cbn. rewrite H8. by rewrite andb_false_r.
  - unfold sessionState. by rewrite H2, H3.
  - rewrite record_click, H2. by rewrite startRecording_without_stream.
Qed.

(** X4 on a page whose camera is denied twice, with clicks on every control
    between: two alerts, still Idle, no stream. *)
Lemma no_camera_witness :
  let es := [WindowLoad; MediaDenied 0; RecordClick; MicClick; ResetClick;
             MediaDenied 0; RecordClick] in
  length (alerts (env (run es init))) = 2 ∧
  sessionState (run es init) = Idle ∧ stream (js (run es init)) = None.
Proof.
  cbn zeta.
  destruct (no_camera_no_recording
    [WindowLoad; MediaDenied 0; RecordClick; MicClick; ResetClick;
     MediaDenied 0; RecordClick]) as (H1 & _ & _ & _ & H5 & _).
  - repeat constructor.
  - split; [reflexivity|]. split; [exact H5|exact H1].
Defined.

Lemma mic_in_sync_frame s s' :
  stream (js s') = stream (js s) → streams (env s') = streams (env s) →
  isMicEnabled (js s') = isMicEnabled (js s) →
  mic_in_sync s → mic_in_sync s'.
Proof. unfold mic_in_sync. intros -> -> ->. done. Qed.

Lemma mic_click_syncs s : mic_in_sync (step MicClick s).
Proof.
  unfold mic_in_sync. intros st ts t. eff.
  destruct (stream (js s)) as [st'|] eqn:Est; cbn; rewrite ?Est; [|done].
  intros [= <-]. rewrite lookup_alter_eq.
  destruct (streams (env s) !! st') as [ts'|]; cbn; [|done].
  intros [= <-] Hin Ha. apply list_elem_of_fmap in Hin as (t' & -> & _).
  unfold enable_audio in *. destruct (is_audio t') eqn:E; [done|].
  congruence.
Qed.

Lemma other_events_keep_mic_sync e s :
  is_grant e = false → mic_in_sync s → mic_in_sync (step e s).
Proof.
  intros Hg Hs. destruct e; try done.
  all: try match goal with
       | |- mic_in_sync (step MicClick _) => apply mic_click_syncs
       | |- mic_in_sync (step ResetClick _) =>
           unfold step, dispatch; rewrite resetRecording_net;
           by apply (mic_in_sync_frame s)
       | |- mic_in_sync (step (RecorderStop ?r) _) =>
           destruct (recorder_stopping (env s) r) eqn:E;
           [rewrite recorder_stop_net by done; by apply (mic_in_sync_frame s)
           |by rewrite recorder_stop_idle]
       end.
  all: eff; unfold ondataavailable, recorder_stream_active; eff_cases.
  all: by apply (mic_in_sync_frame s).
Qed.

Lemma grant_sync s i a :
  pendingMedia (env s) !! i = Some a →
  (mic_in_sync (step (MediaGranted i) s) ↔ a = false ∨ isMicEnabled (js s) = true).
Proof.
  intros Hp. unfold mic_in_sync. eff. rewrite Hp. cbn. split.
  - intros H. destruct a; [right|by left].
    symmetry.
    apply (H _ _ (mkTrack AudioTrack true true) eq_refl (lookup_insert_eq _ _ _));
      [|done].
    cbn. apply elem_of_cons. right. apply elem_of_cons. by left.
  - intros Ha st ts t [= <-]. rewrite lookup_insert_eq. intros [= <-] Hin Haud.
    destruct a; cbn in Hin.
    + destruct Ha as [Ha|Ha]; [done|]. rewrite Ha.
      apply elem_of_cons in Hin as [Hin|Hin]; [by subst|].
      apply elem_of_cons in Hin as [Hin|Hin]; [by subst|].
      by apply not_elem_of_nil in Hin.
    + apply elem_of_cons in Hin as [Hin|Hin]; [by subst|].
      by apply not_elem_of_nil in Hin.
Qed.

(** X5: [toggleMicrophone] leaves the audio tracks of the held stream
    enabled exactly as the microphone flag says, whatever they were before;
    every event other than a fulfilled getUserMedia request keeps that
    agreement; and a fulfilled request gives it exactly when the request asked
    for no audio or the flag is on.  The flag is read when the request is made
    (line 61), not when it is fulfilled. *)
Theorem microphone_sync :
  (∀ s, mic_in_sync (step MicClick s)) ∧
  (∀ e s, is_grant e = false → mic_in_sync s → mic_in_sync (step e s)) ∧
  (∀ s i a, pendingMedia (env s) !! i = Some a →
     (mic_in_sync (step (MediaGranted i) s) ↔
      a = false ∨ isMicEnabled (js s) = true)).
Proof.
  split; [exact mic_click_syncs|].
  split; [exact other_events_keep_mic_sync|exact grant_sync].
Qed.

(** X5 where it fails: the microphone is switched off while the camera
    request is pending.  The button shows it muted, and the stream that
    arrives has a live, enabled audio track. *)
Lemma microphone_sync_witness :
  let s := run [WindowLoad; MicClick; MediaGranted 0] init in
  all_offered [WindowLoad; MicClick; MediaGranted 0] init = true ∧
  isMicEnabled (js s) = false ∧ micButton_enabled (page s) = false ∧
  stream (js s) = Some 1 ∧
  streams (env s) !! 1 =
    Some [mkTrack VideoTrack true true; mkTrack AudioTrack true true] ∧
  ¬ mic_in_sync s.
Proof.
  cbn zeta. do 5 (split; [reflexivity|]).
  destruct microphone_sync as (_ & _ & H).
  intros Hs.
  apply (H (run [WindowLoad; MicClick] init) 0 true eq_refl) in Hs.
  destruct Hs as [Hs|Hs]; discriminate Hs.
Defined.







Lemma phase_time r t d es : ∀ s,
  Forall (phase_callback r) es → intervals (env s) = {[t := d]} →
  recorder_fires (env s) r = true →
  recordingTime (js (run es s)) = recordingTime (js s) + ticks_of t es.
Proof.
  induction es as [|e es IH]; intros s Hall Hi Hf; [cbn; lia|].
  apply Forall_cons in Hall as [He Hes].
  assert (env (step e s) = env s) as Henv.
  { destruct (phase_run r [e] s) as (H & _); [by constructor|done|done]. }
  destruct e; try done; cbn [run ticks_of].
  - rewrite IH; [|done|by rewrite Henv|by rewrite Henv].
    f_equal. cbn in He. subst.
    unfold step, dispatch. eff_unfold. rewrite Hf.
    unfold ondataavailable. by case_bool_decide.
  - rewrite IH; [|done|by rewrite Henv|by rewrite Henv].
    case_bool_decide as Ht.
    + subst t0. destruct (tick_armed s t) as (-> & _); [|lia].
      rewrite Hi, lookup_singleton_eq. eauto.
    + rewrite tick_cleared; [lia|]. rewrite Hi. by apply lookup_singleton_ne.
Qed.

Lemma phase_callback_quiet r e : phase_callback r e → quiet e.
Proof. by destruct e. Qed.

(** X7: over one recording (start on an active stream with no timer armed,
    any fragments and ticks, stop, any late fragments and ticks, the stop
    event) the elapsed counter ends at the number of ticks the recording's own
    timer delivered before [stop()]: ticks of other timers, and ticks after
    [stop()], are not counted. *)
Theorem elapsed_counts_ticks s st ts es1 es2 :
  stream (js s) = Some st →
  streams (env s) !! st = Some ts → stream_active ts = true →
  intervals (env s) = ∅ →
  let r := nextHandle (env s) in
  let t := S (nextHandle (env s)) in
  Forall (phase_callback r) es1 → Forall (phase_callback r) es2 →
  let s1 := run es1 (after (startRecording s)) in
  let s2 := run es2 (after (stopRecording s1)) in
  let s3 := step (RecorderStop r) s2 in
  timerInterval (js s1) = Some t ∧
  recordingTime (js s1) = ticks_of t es1 ∧
  recordingTime (js s3) = ticks_of t es1 ∧
  sessionState s3 = Stopped ∧
  recordedVideoUrl (js s3) = Some (nextHandle (env s2)).
Proof.
  intros Hst Hts Hact Hi r t H1 H2. cbn zeta.
  rewrite (startRecording_net s st ts Hst Hts Hact). cbn [after]. fold r t.
  match goal with |- context [run es1 ?x] => set (s0 := x) end.
  assert (recorders (env s0) !! r = Some (mkRecorder st RecRecording)) as Hl0.
  { apply lookup_insert_eq. }
  assert (recorder_fires (env s0) r = true) as Hf0.
  { unfold recorder_fires. by rewrite Hl0. }
  assert (intervals (env s0) = {[t := 1000%N]}) as Hi0.
  { subst s0. cbn. by rewrite Hi. }
  pose proof (phase_time r t _ es1 s0 H1 Hi0 Hf0) as Ht1.
  destruct (phase_run r es1 s0 H1 Hf0) as (He1 & Hc1 & Hm1 & Hr1 & Hti1 & Hu1).
  set (s1 := run es1 s0) in *. cbn in Ht1, Hm1, Hr1, Hti1.
  rewrite (stopRecording_net s1 r Hm1 Hr1). cbn [after]. rewrite Hti1.
  match goal with |- context [run es2 ?x] => set (s1' := x) end.
  assert (recorders (env s1') !! r = Some (mkRecorder st RecStopping)) as Hl1.
  { subst s1'. cbn. by rewrite lookup_alter_eq, He1, Hl0. }
  assert (recorder_fires (env s1') r = true) as Hf1.
  { unfold recorder_fires. by rewrite Hl1. }
  assert (intervals (env s1') = ∅) as Hi1.
  { subst s1'. cbn. rewrite He1, Hi0. apply delete_singleton_eq. }
  assert (recordingTime (js (run es2 s1')) = recordingTime (js s1')) as Ht2.
  { apply quiet_run; [done|]. eapply Forall_impl; [exact H2|].
    apply phase_callback_quiet. }
  destruct (phase_run r es2 s1' H2 Hf1) as (He2 & Hc2 & Hm2 & Hr2 & Hti2 & Hu2).
  set (s2 := run es2 s1') in *. cbn in Ht2, Hr2.
  assert (recorder_stopping (env s2) r = true) as Hst2.
  { unfold recorder_stopping. by rewrite He2, Hl1. }
  rewrite (recorder_stop_net s2 r Hst2). cbn.
  split; [done|]. split; [lia|]. split; [lia|]. split; [|done].
  unfold sessionState. cbn. by rewrite Hr2.
Qed.

(** X7 on a recording with three ticks of its timer, one tick of a timer
    that does not exist, and one tick after [stop()]. *)
Lemma elapsed_witness :
  let s := run [WindowLoad; MediaGranted 0] init in
  let s1 := run [TimerTick 3; DataAvailable 2 (mkBlob [Byte.x01] ""); TimerTick 3;
                 TimerTick 7; TimerTick 3] (after (startRecording s)) in
  let s2 := run [TimerTick 3; DataAvailable 2 (mkBlob [Byte.x02] "")]
              (after (stopRecording s1)) in
  let s3 := step (RecorderStop 2) s2 in
  recordingTime (js s3) = 3 ∧ sessionState s3 = Stopped ∧
  recordedVideoUrl (js s3) = Some 4.
Proof.
  cbn zeta.
  destruct (elapsed_counts_ticks (run [WindowLoad; MediaGranted 0] init) 1
    (user_media_tracks true)
    [TimerTick 3; DataAvailable 2 (mkBlob [Byte.x01] ""); TimerTick 3;
     TimerTick 7; TimerTick 3]
    [TimerTick 3; DataAvailable 2 (mkBlob [Byte.x02] "")]
    eq_refl eq_refl eq_refl eq_refl) as (_ & _ & H3 & H4 & H5).
  - repeat constructor.
  - repeat constructor.
  - split; [exact H3|]. split; [exact H4|exact H5].
Defined.

Lemma track_stop_idem t : track_stop (track_stop t) = track_stop t.
Proof. done. Qed.

Lemma beforeunload_net s :
  beforeunload s =
    Normal ()
      (mkState (js s)
         (mkPlatform
            (match stream (js s) with
             | Some st => alter (map track_stop) st (streams (env s))
             | None => streams (env s)
             end)
            (recorders (env s)) (objectUrls (env s))
            (match timerInterval (js s) with
             | Some t => delete t (intervals (env s))
             | None => intervals (env s)
             end)
            (pendingMedia (env s)) (nextHandle (env s))
            (alerts (env s)) (downloads (env s)))
         (page s)).
Proof.
  eff. destruct (stream (js s)), (timerInterval (js s)); cbn; try done.
  all: by destruct s as [? [] ?].
Qed.

Lemma stop_tracks_twice st (m : gmap nat (list Track)) :
  alter (map track_stop) st (alter (map track_stop) st m) =
  alter (map track_stop) st m.
Proof.
  apply map_eq. intros i. rewrite !lookup_alter.
  case_decide; [subst|done]. rewrite decide_True by done.
  destruct (m !! i) as [ts|]; cbn; [|done]. f_equal.
  rewrite <- list_fmap_compose. by apply list_fmap_ext.
Qed.

(** X8: stopping and tearing down twice is stopping and tearing down once: a
    second [stopRecording] right after the first, and a second run of the
    [beforeunload] listener right after the first, change nothing. *)
Theorem stop_and_teardown_idempotent s :
  after (stopRecording (after (stopRecording s))) = after (stopRecording s) ∧
  after (beforeunload (after (beforeunload s))) = after (beforeunload s).
Proof.
  split.
  - destruct (isRecording (js s)) eqn:Hrec.
    + destruct (mediaRecorder (js s)) as [r|] eqn:Er.
      * rewrite (stopRecording_net s r Er Hrec). cbn [after].
        by rewrite stopRecording_not_recording.
      * assert (stopRecording s = Normal () s) as ->; [|cbn [after]].
        { eff. by rewrite Er. }
        eff. by rewrite Er.
    + rewrite (stopRecording_not_recording s Hrec). cbn [after].
      by rewrite (stopRecording_not_recording s Hrec).
  - rewrite (beforeunload_net s). cbn [after]. rewrite beforeunload_net. cbn.
    do 2 f_equal.
    + destruct (stream (js s)); [apply stop_tracks_twice|done].
    + destruct (timerInterval (js s)); [apply delete_delete_eq|done].
Qed.

(** ** The elapsed-time display *)

Lemma padStart0_pretty n : n < 100 → padStart0 2 (pretty n) = digits2 n.
Proof.
  intros Hn.
  do 100 (destruct n as [|n]; [vm_compute; reflexivity|]). lia.
Qed.

(** X9: below 100 minutes the text [updateRecordingTime] writes is
    [REC mm:ss], minutes and seconds in two decimal digits each, padded with
    a zero. *)
Theorem recordingTimeString_form t :
  t < 100 * 60 →
  recordingTimeString t =
    ("REC " +:+ digits2 (t / 60) +:+ ":" +:+ digits2 (t mod 60))%string.
Proof.
  intros Ht. unfold recordingTimeString.
  rewrite !padStart0_pretty; [done| |].
  - pose proof (Nat.mod_upper_bound t 60). lia.
  - apply Nat.Div0.div_lt_upper_bound. lia.
Qed.

(** X9 at 2 minutes 5 seconds. *)
Lemma recordingTimeString_witness :
  recordingTimeString 125 = "REC 02:05"%string.
Proof.
  rewrite (recordingTimeString_form 125); [reflexivity|]. vm_compute. lia.
Defined.

Lemma display_step e s :
  recordingTime_text (page (step e s)) =
    if armed_tick e s then recordingTimeString (recordingTime (js s) + 1)
    else recordingTime_text (page s).
Proof.
  destruct e; cbn [armed_tick].
  4:{ rewrite record_click. destruct (isRecording (js s)) eqn:Hrec.
      - eff. rewrite Hrec. eff_cases; done.
      - eff. eff_cases; try done. }
  all: eff; unfold ondataavailable; repeat eff_cases; try done.
Qed.

Lemma display_run es : ∀ s,
  recordingTime_text (page (run es s)) = recordingTime_text (page s) ∨
  ∃ n, 0 < n ∧ recordingTime_text (page (run es s)) = recordingTimeString n.
Proof.
  induction es as [|e es IH]; intros s; [by left|].
  cbn [run]. destruct (IH (step e s)) as [H|H]; [|by right].
  rewrite H, display_step. destruct (armed_tick e s); [|by left].
  right. exists (recordingTime (js s) + 1). split; [lia|done].
Qed.

(** X10: the elapsed-time text is written by the interval callback and by
    nothing else.  A tick of an armed timer writes the text of the
    incremented counter and leaves the display in step with it; every other
    event leaves the text as it was.  Reset and start set the counter to 0
    and do not write the text, so a recording starts with its indicator
    visible and showing what the last tick before it wrote. *)
Theorem display_written_only_by_ticks :
  (∀ e s, recordingTime_text (page (step e s)) =
          if armed_tick e s then recordingTimeString (recordingTime (js s) + 1)
          else recordingTime_text (page s)) ∧
  (∀ s t, is_Some (intervals (env s) !! t) →
          display_in_sync (step (TimerTick t) s)) ∧
  (∀ es s, recordingTime_text (page (run es s)) = recordingTime_text (page s) ∨
           ∃ n, 0 < n ∧ recordingTime_text (page (run es s)) = recordingTimeString n) ∧
  (∀ s, recordingTime (js (step ResetClick s)) = 0 ∧
        recordingTime_text (page (step ResetClick s)) = recordingTime_text (page s)) ∧
  (∀ s, isRecording (js s) = false → has_active_source s = true →
        recordingTime (js (step RecordClick s)) = 0 ∧
        isRecording (js (step RecordClick s)) = true ∧
        recordingIndicator_hidden (page (step RecordClick s)) = false ∧
        recordingTime_text (page (step RecordClick s)) = recordingTime_text (page s)).
Proof.
  split; [exact display_step|]. split; [|split; [exact (λ es s, display_run es s)|split]].
  - intros s t Hin. unfold display_in_sync.
    rewrite display_step. cbn [armed_tick]. rewrite bool_decide_eq_true_2 by done.
    destruct (tick_armed s t Hin) as (-> & _). done.
  - intros s. split; [|by rewrite display_step].
    unfold step, dispatch. by rewrite resetRecording_net.
  - intros s Hrec Hact. unfold has_active_source in Hact.
    destruct (stream (js s)) as [st|] eqn:Est; [|done].
    destruct (streams (env s) !! st) as [ts|] eqn:Ets; [|done].
    split_and!; [| | |by rewrite display_step].
    all: rewrite record_click, Hrec, (startRecording_net s st ts Est Ets Hact); done.
Qed.

(** X10 on a second recording: the first ran for two ticks, was stopped and
    reset; the next recording starts with the counter at 0 and the indicator
    reading [REC 00:02]. *)
Lemma display_witness :
  let es := [WindowLoad; MediaGranted 0; RecordClick; TimerTick 3; TimerTick 3;
             RecordClick; RecorderStop 2; ResetClick; MediaGranted 0] in
  let s := step RecordClick (run es init) in
  all_offered (es ++ [RecordClick]) init = true ∧
  isRecording (js s) = true ∧
  recordingIndicator_hidden (page s) = false ∧
  recordingTime (js s) = 0 ∧
  recordingTime_text (page s) = "REC 00:02"%string ∧
  ¬ display_in_sync s.
Proof.
  cbn zeta.
  destruct display_written_only_by_ticks as (_ & _ & _ & _ & H).
  assert (isRecording (js (run [WindowLoad; MediaGranted 0; RecordClick;
            TimerTick 3; TimerTick 3; RecordClick; RecorderStop 2; ResetClick;
            MediaGranted 0] init)) = false) as Hrec.
  { vm_compute. reflexivity. }
  assert (has_active_source (run [WindowLoad; MediaGranted 0; RecordClick;
            TimerTick 3; TimerTick 3; RecordClick; RecorderStop 2; ResetClick;
            MediaGranted 0] init) = true) as Hact.
  { vm_compute. reflexivity. }
  destruct (H _ Hrec Hact) as (H1 & H2 & H3 & H4).
  split; [vm_compute; reflexivity|].
  split; [exact H2|]. split; [exact H3|]. split; [exact H1|].
  split.
  - rewrite H4. vm_compute. reflexivity.
  - unfold display_in_sync. rewrite H4, H1. vm_compute. discriminate.
Defined.

(** ** The question panel *)

Lemma updateQuestionDisplay_index q :
  currentQuestion (updateQuestionDisplay q) = currentQuestion q.
Proof. done. Qed.

Lemma nextQuestion_index q :
  currentQuestion (nextQuestion q) = (currentQuestion q + 1) mod length questions.
Proof. done. Qed.

Lemma question_in_range i :
  i < length questions → ∃ x, questions !! i = Some x.
Proof. intros Hi. by apply lookup_lt_is_Some_2. Qed.

Lemma nextQuestion_shows q :
  let q' := nextQuestion q in
  currentQuestion q' < length questions ∧
  questions !! currentQuestion q' = Some (questionText_text q') ∧
  questionNumber_text q' =
    ("Question " +:+ pretty (currentQuestion q' + 1) +:+ " of 5")%string.
Proof.
  cbn zeta. rewrite nextQuestion_index.
  assert ((currentQuestion q + 1) mod length questions < length questions) as Hlt.
  { apply Nat.mod_upper_bound. done. }
  split; [exact Hlt|]. split; [|done].
  destruct (question_in_range _ Hlt) as [x Hx].
  unfold nextQuestion, updateQuestionDisplay. cbn [questionText_text currentQuestion].
  by rewrite Hx.
Qed.

Lemma nextQuestion_iter_index n q :
  currentQuestion (Nat.iter n nextQuestion q) =
    (currentQuestion q + n) mod length questions ∨
  n = 0.
Proof.
  induction n as [|n IH]; [by right|]. left.
  rewrite Nat.iter_succ, nextQuestion_index.
  destruct IH as [->| ->].
  - rewrite Nat.Div0.add_mod_idemp_l. f_equal. lia.
  - cbn. f_equal; lia.
Qed.

Lemma quiz_cycle_from i number text :
  i < length questions →
  Nat.iter (length questions) nextQuestion
    (updateQuestionDisplay (mkQuiz i number text)) =
  updateQuestionDisplay (mkQuiz i number text).
Proof.
  intros Hi. do 5 (destruct i as [|i]; [vm_compute; reflexivity|]).
  cbn in Hi. lia.
Qed.

(** X11: after the script has loaded and [nextQuestion] has run [n] times,
    whatever the markup put in the panel, the current question is number
    [n mod 5], the panel shows that question's text (an entry of the list,
    never the [undefined] past its end) and the heading
    [Question (n mod 5 + 1) of 5]; five more calls bring the panel back to
    the same state. *)
Theorem questions_cycle n number text :
  let q := Nat.iter n nextQuestion (quiz_loaded number text) in
  currentQuestion q = n mod length questions ∧
  questions !! (n mod length questions) = Some (questionText_text q) ∧
  questionNumber_text q =
    ("Question " +:+ pretty (n mod length questions + 1) +:+ " of 5")%string ∧
  Nat.iter (length questions) nextQuestion q = q.
Proof.
  cbn zeta. destruct n as [|n].
  - cbn. split; [done|]. split; [done|]. split; [done|].
    vm_compute. reflexivity.
  - rewrite Nat.iter_succ.
    destruct (nextQuestion_shows (Nat.iter n nextQuestion (quiz_loaded number text)))
      as (Hlt & Htxt & Hnum).
    assert (currentQuestion
              (nextQuestion (Nat.iter n nextQuestion (quiz_loaded number text))) =
            S n mod length questions) as Hi.
    { rewrite nextQuestion_index.
      destruct (nextQuestion_iter_index n (quiz_loaded number text)) as [->| ->].
      - rewrite Nat.Div0.add_mod_idemp_l. cbn [quiz_loaded currentQuestion
          updateQuestionDisplay]. f_equal. lia.
      - done. }
    rewrite <- Hi. split; [done|]. split; [exact Htxt|]. split; [exact Hnum|].
    unfold nextQuestion at 2 3. apply quiz_cycle_from.
    apply Nat.mod_upper_bound. done.
Qed.

(** ** Page navigation *)

Lemma deactivate_pages_tabs doc :
  deactivate_all el_tab (deactivate_all el_page doc) = map cleared doc.
Proof.
  unfold deactivate_all. rewrite map_map. apply map_ext. intros [id pg tb ac].
  unfold cleared. by destruct pg, tb.
Qed.

Lemma getElementById_ids id doc doc' :
  map el_id doc' = map el_id doc →
  getElementById id doc' = getElementById id doc.
Proof.
  revert doc'. induction doc as [|e doc IH]; intros [|e' doc'] H; try done.
  cbn in H. injection H as He Hd. cbn. rewrite He. by rewrite (IH doc' Hd).
Qed.

Lemma getElementById_cleared id doc :
  getElementById id (map cleared doc) = getElementById id doc.
Proof.
  apply getElementById_ids. rewrite map_map. apply map_ext.
  intros [i pg tb ac]. unfold cleared. cbn. by destruct (pg || tb).
Qed.

Lemma getElementById_Some id doc p :
  getElementById id doc = Some p →
  (∃ e, doc !! p = Some e ∧ el_id e = id) ∧
  (∀ j e, j < p → doc !! j = Some e → el_id e ≠ id).
Proof.
  revert p. induction doc as [|e doc IH]; intros p H; [done|].
  cbn in H. destruct (String.eqb (el_id e) id) eqn:E.
  - injection H as <-. apply String.eqb_eq in E. split; [by exists e|].
    intros j e' Hj. lia.
  - destruct (getElementById id doc) as [p'|] eqn:Hp; [|done].
    injection H as <-. destruct (IH p' eq_refl) as [Hex Hfirst]. split; [exact Hex|].
    intros [|j] e' Hj He'.
    + cbn in He'. injection He' as <-. by apply String.eqb_neq.
    + apply (Hfirst j); [lia|done].
Qed.

Lemma getElementById_None id doc :
  getElementById id doc = None ↔ ∀ e, e ∈ doc → el_id e ≠ id.
Proof.
  induction doc as [|e doc IH].
  - split; [|done]. intros _ e He. by apply elem_of_nil in He.
  - cbn. destruct (String.eqb (el_id e) id) eqn:E.
    + split; [done|]. intros H. apply String.eqb_eq in E.
      exfalso. apply (H e); [left|done].
    + apply String.eqb_neq in E. destruct (getElementById id doc) as [p|].
      * split; [done|]. intros H. assert (@None nat = None) as Hn by done.
        exfalso. assert (Some p = None → False) as Hx by done.
        apply Hx. apply IH. intros e' He'. apply H. by right.
      * split; [|done]. intros _ e' He'. apply elem_of_cons in He' as [->|He'];
          [done|]. by apply IH.
Qed.

Lemma set_active_cleared e : set_active true (cleared e) = set_active true e.
Proof. unfold cleared. by destruct (el_page e || el_tab e). Qed.

Lemma activate_lookup i j doc :
  activate i doc !! j =
    (λ e, if bool_decide (j = i) then set_active true e else e) <$> doc !! j.
Proof.
  unfold activate. destruct (decide (j = i)) as [->|Hne].
  - rewrite list_lookup_alter_eq, bool_decide_eq_true_2 by done. done.
  - rewrite list_lookup_alter_ne by done. rewrite bool_decide_eq_false_2 by done.
    by destruct (doc !! j).
Qed.

(** X12: [showPage(id)] when the document has an element [id-page].
    Afterwards the first element with that id and the event's target carry
    [active], every other page and nav-tab does not, and every other element
    is as it was.  The call returns when an event is being dispatched; with
    none it throws TypeError at [event.target], after the page was
    switched. *)
Theorem showPage_known_page pageId target doc p :
  getElementById (pageId +:+ "-page") doc = Some p →
  let o := showPage pageId target doc in
  o = match target with
      | Some _ => Done (document_of o)
      | None => Threw TypeError (document_of o)
      end ∧
  length (document_of o) = length doc ∧
  (∃ e, doc !! p = Some e ∧ el_id e = (pageId +:+ "-page")%string) ∧
  (∀ i e, doc !! i = Some e →
     document_of o !! i =
       Some (if bool_decide (i = p ∨ target = Some i)
             then set_active true e else cleared e)).
Proof.
  intros Hp. cbn zeta. unfold showPage.
  rewrite deactivate_pages_tabs, getElementById_cleared, Hp.
  split; [by destruct target|]. split; [|split].
  - destruct target; cbn; unfold activate;
      by rewrite ?length_alter, ?length_map.
  - by destruct (getElementById_Some _ _ _ Hp) as [? _].
  - intros i e He.
    assert (map cleared doc !! i = Some (cleared e)) as Hc.
    { change (map cleared doc) with (cleared <$> doc).
      by rewrite list_lookup_fmap, He. }
    destruct target as [t|]; cbn [document_of];
      rewrite !activate_lookup, Hc; cbn; f_equal;
      repeat case_bool_decide; try (exfalso; intuition congruence);
      unfold cleared, set_active; by destruct e as [? [] [] ?].
Qed.

(** X13: [showPage(id)] when no element has the id [id-page] throws
    TypeError at the lookup's [classList], after its two loops have run: no
    page and no nav-tab is active afterwards, the clicked tab included, and
    the elements that are neither are as they were. *)
Theorem showPage_unknown_page pageId target doc :
  (∀ e, e ∈ doc → el_id e ≠ (pageId +:+ "-page")%string) →
  showPage pageId target doc = Threw TypeError (map cleared doc) ∧
  (∀ e, e ∈ map cleared doc →
        el_page e = true ∨ el_tab e = true → el_active e = false) ∧
  (∀ i e, doc !! i = Some e → el_page e = false → el_tab e = false →
        map cleared doc !! i = Some e).
Proof.
  intros Hno. apply getElementById_None in Hno.
  split; [|split].
  - unfold showPage. by rewrite deactivate_pages_tabs, getElementById_cleared, Hno.
  - intros e He Hpt. change (map cleared doc) with (cleared <$> doc) in He.
    apply list_elem_of_fmap in He as (e0 & -> & _).
    unfold cleared in *. destruct (el_page e0 || el_tab e0) eqn:E; [done|].
    apply orb_false_elim in E as [E1 E2]. rewrite E1, E2 in Hpt. by destruct Hpt.
  - intros i e He Hp Ht. change (map cleared doc) with (cleared <$> doc).
    rewrite list_lookup_fmap, He. cbn. unfold cleared. by rewrite Hp, Ht.
Qed.

(** X12 on a click on the second tab. *)
Lemma showPage_known_witness :
  showPage "record" (Some 1) sample_document =
    Done [ mkElement "home-tab" false true false;
           mkElement "record-tab" false true true;
           mkElement "home-page" true false false;
           mkElement "record-page" true false true ]%string.
Proof.
  destruct (showPage_known_page "record" (Some 1) sample_document 3 eq_refl)
    as (-> & _). reflexivity.
Defined.

(** X13 on a click that names a page the document does not have. *)
Lemma showPage_unknown_witness :
  showPage "settings" (Some 1) sample_document =
    Threw TypeError
      [ mkElement "home-tab" false true false;
        mkElement "record-tab" false true false;
        mkElement "home-page" true false false;
        mkElement "record-page" true false false ]%string.
Proof.
  destruct (showPage_unknown_page "settings" (Some 1) sample_document) as (-> & _).
  - intros e He. unfold sample_document in He.
    repeat (apply elem_of_cons in He as [->|He]; [discriminate|]).
    by apply elem_of_nil in He.
  - reflexivity.
Defined.

(** ** Exceptions *)





(** X15: [startRecording] on a held stream that has no live track passes
    its guard, empties the fragment list, creates a recorder and holds it, and
    then throws NotSupportedError out of [mediaRecorder.start()]: the
    recorder stays inactive, and [isRecording], the elapsed counter, the
    timer and the page are as they were. *)
Theorem startRecording_on_inactive_stream s st :
  stream (js s) = Some st → has_active_source s = false →
  ∃ s', startRecording s = Abrupt NotSupportedError s' ∧
        recordedChunks (js s') = [] ∧
        mediaRecorder (js s') = Some (nextHandle (env s)) ∧
        recorders (env s') =
          <[nextHandle (env s) := mkRecorder st RecInactive]> (recorders (env s)) ∧
        isRecording (js s') = isRecording (js s) ∧
        recordingTime (js s') = recordingTime (js s) ∧
        timerInterval (js s') = timerInterval (js s) ∧
        intervals (env s') = intervals (env s) ∧
        page s' = page s.
Proof.
  intros Hst Hact. unfold has_active_source in Hact. rewrite Hst in Hact.
  eff. rewrite Hst. cbn. unfold recorder_stream_active. cbn.
  rewrite lookup_insert_eq. cbn.
  destruct (streams (env s) !! st) as [ts|]; [rewrite Hact|];
    (eexists; split; [reflexivity|]; cbn; by rewrite ?Hst).
Qed.

(** X15 on a page whose tracks the [beforeunload] listener has stopped. *)
Lemma inactive_stream_witness :
  let s := after (beforeunload (run [WindowLoad; MediaGranted 0; MicClick] init)) in
  returns (startRecording s) = false ∧
  recordedChunks (js (after (startRecording s))) = [] ∧
  mediaRecorder (js (after (startRecording s))) = Some 2 ∧
  isRecording (js (after (startRecording s))) = false.
Proof.
  cbn zeta.
  destruct (startRecording_on_inactive_stream
    (after (beforeunload (run [WindowLoad; MediaGranted 0; MicClick] init))) 1
    eq_refl eq_refl) as (s' & -> & H1 & H2 & _ & H4 & _).
  split; [reflexivity|]. split; [exact H1|]. split; [exact H2|exact H4].
Defined.
